(** * honeycomb: the task manager service, embedded from its Go packages

    One Rocq module per Go package (database, metrics, storage, tasks, api).
    Mutexes and log calls have no effect on the values computed and are
    left out; every request is run to completion on its own. *)

From stdpp Require Import gmap strings pretty list fin_maps.

Local Open Scope Z_scope.

(** ** Values of the Go runtime used by every package *)

(** An [error] is either built by [errors.New] or is the [context] package's
    [DeadlineExceeded]. *)
Inductive error : Type :=
  | errors_New (msg : string)
  | context_DeadlineExceeded.

Definition Error (e : error) : string :=
  match e with
  | errors_New msg => msg
  | context_DeadlineExceeded => "context deadline exceeded"
  end.

#[global] Instance error_eq_dec : EqDecision error.
Proof. solve_decision. Defined.

(** [int64] (and [int] on a 64-bit target) arithmetic wraps around. *)
Definition min_int64 : Z := - 2 ^ 63.
Definition max_int64 : Z := 2 ^ 63 - 1.
Definition wrap64 (z : Z) : Z := (z + 2 ^ 63) mod 2 ^ 64 - 2 ^ 63.

(** ** package database *)
Module database.

Record db : Type := { connected : bool }.

(** [newDatabase] starts disconnected; the hooks flip the flag. *)
Definition newDatabase : db := {| connected := false |}.
Definition OnStart (d : db) : db := {| connected := true |}.
Definition OnStop (d : db) : db := {| connected := false |}.

(** [Ping] returns [nil] ([None]) or an error. *)
Definition Ping (d : db) : option error :=
  if negb (connected d) then Some context_DeadlineExceeded else None.

Definition IsConnected (d : db) : bool := connected d.

End database.

(** ** package metrics *)
Module metrics.

Record metrics : Type := { requests : Z; errors : Z }.

Definition newMetrics : metrics := {| requests := 0; errors := 0 |}.

Definition IncrementRequests (m : metrics) : metrics :=
  {| requests := wrap64 (requests m + 1); errors := errors m |}.

Definition IncrementErrors (m : metrics) : metrics :=
  {| requests := requests m; errors := wrap64 (errors m + 1) |}.

Definition GetRequests (m : metrics) : Z := requests m.
Definition GetErrors (m : metrics) : Z := errors m.

End metrics.

(** ** package storage *)
Module storage.

Section memoryStorage.
(** The stored values are [interface{}]: any type [V] with its [nil]. *)
Context {V : Type} (nil : V).

Record memoryStorage : Type := { data : gmap string V }.

Definition newStorage : memoryStorage := {| data := ∅ |}.

(** The stop hook replaces the map by an empty one. *)
Definition OnStop (s : memoryStorage) : memoryStorage := {| data := ∅ |}.

(** [Set] in the source; [Set] is reserved in Rocq. *)
Definition Set_ (key : string) (value : V) (s : memoryStorage)
  : memoryStorage :=
  {| data := <[key := value]> (data s) |}.

(** [val, ok := s.data[key]]: the zero value and [false] when absent. *)
Definition Get (key : string) (s : memoryStorage) : V * bool :=
  match data s !! key with
  | Some val => (val, true)
  | None => (nil, false)
  end.

Definition Delete (key : string) (s : memoryStorage) : memoryStorage :=
  {| data := delete key (data s) |}.

(** [List] copies every binding into a new map. *)
Definition List (s : memoryStorage) : gmap string V :=
  map_fold (λ k v result, <[k := v]> result) ∅ (data s).

Definition Count (s : memoryStorage) : Z := Z.of_nat (size (data s)).

End memoryStorage.

Arguments memoryStorage V : clear implicits.

End storage.

(** ** package tasks *)
Module tasks.

(** [time.Time], reduced to its instant in nanoseconds since the epoch. *)
Definition Time : Type := Z.
Definition UnixNano (t : Time) : Z := t.

Record Task : Type := {
  ID : string;
  Title : string;
  Description : string;
  Status : string;
  CreatedAt : Time;
  UpdatedAt : Time;
}.

(** A [*Task] is [nil] ([None]) or the address of a cell of the heap. *)
Definition loc : Type := positive.
Definition ptr : Type := option loc.

(** What an [interface{}] handed to the storage may hold: nothing, a
    [*Task], or a value of some other type. *)
Inductive any : Type :=
  | any_nil
  | any_Task (task : ptr)
  | any_other (v : string).

(** The objects shared by the task manager and its callers: the storage
    and metrics it was built with, the cells its pointers refer to, and
    how many times the clock has been read. *)
Record World : Type := {
  st_storage : storage.memoryStorage any;
  st_metrics : metrics.metrics;
  st_heap : gmap loc Task;
  st_ticks : nat;
}.

(** A call either returns, with the world it leaves, or panics. *)
Inductive outcome (A : Type) : Type :=
  | Done (a : A) (w : World)
  | Panic.
Arguments Done {A} a w.
Arguments Panic {A}.

Definition M (A : Type) : Type := World → outcome A.

Definition ret {A} (a : A) : M A := λ w, Done a w.

Definition bind {A B} (c : M A) (k : A → M B) : M B :=
  λ w, match c w with
       | Done a w' => k a w'
       | Panic => Panic
       end.

#[global] Instance M_ret : MRet M := @ret.
#[global] Instance M_bind : MBind M := λ A B k c, bind c k.

(** Changing one component of the world. *)
Definition upd_storage
    (f : storage.memoryStorage any → storage.memoryStorage any)
    (w : World) : World :=
  {| st_storage := f (st_storage w); st_metrics := st_metrics w;
     st_heap := st_heap w; st_ticks := st_ticks w |}.
Definition upd_metrics (f : metrics.metrics → metrics.metrics)
    (w : World) : World :=
  {| st_storage := st_storage w; st_metrics := f (st_metrics w);
     st_heap := st_heap w; st_ticks := st_ticks w |}.
Definition upd_heap (f : gmap loc Task → gmap loc Task) (w : World) : World :=
  {| st_storage := st_storage w; st_metrics := st_metrics w;
     st_heap := f (st_heap w); st_ticks := st_ticks w |}.
Definition tick (w : World) : World :=
  {| st_storage := st_storage w; st_metrics := st_metrics w;
     st_heap := st_heap w; st_ticks := S (st_ticks w) |}.

(** The calls on the shared objects, lifted to [M]. *)
Definition storage_Set (key : string) (value : any) : M unit :=
  λ w, Done tt (upd_storage (storage.Set_ key value) w).

Definition storage_Get (key : string) : M (any * bool) :=
  λ w, Done (storage.Get any_nil key (st_storage w)) w.

Definition storage_Delete (key : string) : M unit :=
  λ w, Done tt (upd_storage (storage.Delete key) w).

Definition storage_List : M (gmap string any) :=
  λ w, Done (storage.List (st_storage w)) w.

Definition metrics_IncrementErrors : M unit :=
  λ w, Done tt (upd_metrics metrics.IncrementErrors w).

Definition metrics_IncrementRequests : M unit :=
  λ w, Done tt (upd_metrics metrics.IncrementRequests w).

Definition metrics_GetRequests : M Z :=
  λ w, Done (metrics.GetRequests (st_metrics w)) w.

Definition metrics_GetErrors : M Z :=
  λ w, Done (metrics.GetErrors (st_metrics w)) w.

(** A composite literal behind [&]: a cell that was not in use before. *)
Definition new (t : Task) : M ptr :=
  λ w, let l := fresh (dom (st_heap w)) in
       Done (Some l) (upd_heap (insert l t) w).

(** Reading through a pointer; through [nil] it panics. *)
Definition load (task : ptr) : M Task :=
  λ w, match task ≫= (λ l, st_heap w !! l) with
       | Some t => Done t w
       | None => Panic
       end.

(** Assigning to a field through a pointer; through [nil] it panics. *)
Definition modify (task : ptr) (f : Task → Task) : M unit :=
  λ w, match task with
       | Some l =>
           match st_heap w !! l with
           | Some t => Done tt (upd_heap (insert l (f t)) w)
           | None => Panic
           end
       | None => Panic
       end.

Definition set_Title (v : string) (t : Task) : Task :=
  {| ID := ID t; Title := v; Description := Description t;
     Status := Status t; CreatedAt := CreatedAt t; UpdatedAt := UpdatedAt t |}.
Definition set_Description (v : string) (t : Task) : Task :=
  {| ID := ID t; Title := Title t; Description := v;
     Status := Status t; CreatedAt := CreatedAt t; UpdatedAt := UpdatedAt t |}.
Definition set_Status (v : string) (t : Task) : Task :=
  {| ID := ID t; Title := Title t; Description := Description t;
     Status := v; CreatedAt := CreatedAt t; UpdatedAt := UpdatedAt t |}.
Definition set_UpdatedAt (v : Time) (t : Task) : Task :=
  {| ID := ID t; Title := Title t; Description := Description t;
     Status := Status t; CreatedAt := CreatedAt t; UpdatedAt := v |}.

(** The type assertion of a stored value to a pointer to [Task]. *)
Definition as_Task (val : any) : option ptr :=
  match val with
  | any_Task task => Some task
  | _ => None
  end.

Record Stats : Type := {
  total_tasks : Z;
  total_requests : Z;
  total_errors : Z;
  by_status : gmap string Z;
}.

(** The sum, over the statuses, of their counts. *)
Definition sum_counts (statusCount : gmap string Z) : Z :=
  map_fold (λ _ n acc, n + acc) 0 statusCount.

(** The world a freshly wired process starts in. *)
Definition initial : World :=
  {| st_storage := storage.newStorage;
     st_metrics := metrics.newMetrics;
     st_heap := ∅;
     st_ticks := 0 |}.

Section taskManager.
(** [now k] is what the [k]-th call of [time.Now] of the process
    returns; [range m] is the order in which a [for ... range] loop
    visits the map [m]. *)
Variable now : nat → Time.
Variable range : gmap string any → list (string * any).

Definition time_Now : M Time :=
  λ w, Done (now (st_ticks w)) (tick w).

Definition Create (title description : string) : M (ptr * option error) :=
  if decide (title = "") then
    metrics_IncrementErrors ;;
    ret (None, Some (errors_New "title is required"))
  else
    t_id ← time_Now;
    t_created ← time_Now;
    t_updated ← time_Now;
    let id := "task-" +:+ pretty (UnixNano t_id) in
    task ← new {| ID := id;
                   Title := title;
                   Description := description;
                   Status := "pending";
                   CreatedAt := t_created;
                   UpdatedAt := t_updated |};
    storage_Set id (any_Task task) ;;
    ret (task, None).

Definition Get (id : string) : M (ptr * option error) :=
  '(val, ok) ← storage_Get id;
  if negb ok then
    metrics_IncrementErrors ;;
    ret (None, Some (errors_New "task not found"))
  else
    match as_Task val with
    | None =>
        metrics_IncrementErrors ;;
        ret (None, Some (errors_New "invalid task data"))
    | Some task => ret (task, None)
    end.

Definition List : M (list ptr) :=
  all ← storage_List;
  ret (omap (λ kv, as_Task kv.2) (range all)).

Definition Update (id title description status : string)
  : M (ptr * option error) :=
  '(task, err) ← Get id;
  match err with
  | Some e => ret (None, Some e)
  | None =>
      (if decide (title ≠ "")
       then modify task (set_Title title) else ret tt) ;;
      (if decide (description ≠ "")
       then modify task (set_Description description) else ret tt) ;;
      (if decide (status ≠ "")
       then modify task (set_Status status) else ret tt) ;;
      t_now ← time_Now;
      modify task (set_UpdatedAt t_now) ;;
      storage_Set id (any_Task task) ;;
      ret (task, None)
  end.

Definition Delete (id : string) : M (option error) :=
  '(_, err) ← Get id;
  match err with
  | Some e => ret (Some e)
  | None => storage_Delete id ;; ret None
  end.

(** [statusCount[task.Status]++] for each task in turn. *)
Fixpoint count_status (tasks : list ptr) (statusCount : gmap string Z)
  : M (gmap string Z) :=
  match tasks with
  | [] => ret statusCount
  | task :: rest =>
      t ← load task;
      count_status rest
        (<[Status t := wrap64 (default 0 (statusCount !! Status t) + 1)]>
           statusCount)
  end.

Definition GetStats : M Stats :=
  tasks ← List;
  requests ← metrics_GetRequests;
  errors ← metrics_GetErrors;
  statusCount ← count_status tasks ∅;
  ret {| total_tasks := Z.of_nat (length tasks);
         total_requests := requests;
         total_errors := errors;
         by_status := statusCount |}.

End taskManager.

End tasks.

(** ** package api *)
Module api.
Import tasks.

(** The parts of an [http.Request] that [handleTasks] reads. *)
Record Request : Type := {
  Method : string;
  Body : string;
}.

Definition MethodGet : string := "GET".
Definition MethodPost : string := "POST".

Definition StatusOK : Z := 200.
Definition StatusCreated : Z := 201.
Definition StatusBadRequest : Z := 400.
Definition StatusMethodNotAllowed : Z := 405.

(** The anonymous struct a POST body is decoded into. *)
Record postRequest : Type := {
  Title : string;
  Description : string;
}.

(** The values [handleTasks] hands to the JSON encoder. *)
Inductive data : Type :=
  | data_map (m : gmap string string)
  | data_Task (task : ptr)
  | data_Tasks (tasks : list ptr).

(** What was written to the [http.ResponseWriter]. *)
Record Response : Type := {
  ContentType : string;
  StatusCode : Z;
  Encoded : data;
}.

Section server.
Variable now : nat → Time.
Variable range : gmap string any → list (string * any).
(** [json.NewDecoder(r.Body).Decode(&req)]: [None] is a decoding
    error, otherwise the struct as the decoder filled it. *)
Variable json_Decode : string → option postRequest.

Definition jsonResponse (status : Z) (d : data) : M Response :=
  ret {| ContentType := "application/json";
         StatusCode := status;
         Encoded := d |}.

Definition jsonError (status : Z) (message : string) : M Response :=
  jsonResponse status (data_map {["error" := message]}).

Definition handleTasks (r : Request) : M Response :=
  if decide (Method r = MethodGet) then
    tasks ← List range;
    jsonResponse StatusOK (data_Tasks tasks)
  else if decide (Method r = MethodPost) then
    match json_Decode (Body r) with
    | None =>
        metrics_IncrementErrors ;;
        jsonError StatusBadRequest "Invalid request body"
    | Some req =>
        '(task, err) ← Create now (Title req) (Description req);
        match err with
        | Some e =>
            metrics_IncrementErrors ;;
            jsonError StatusBadRequest (Error e)
        | None => jsonResponse StatusCreated (data_Task task)
        end
    end
  else
    jsonError StatusMethodNotAllowed "Method not allowed".

(** The middleware counts the request, then runs the handler. *)
Definition loggingMiddleware (next : Request → M Response)
    (r : Request) : M Response :=
  metrics_IncrementRequests ;;
  next r.

End server.

(** [handleTaskByID] also reads [r.URL.Path], which [Request] leaves out:
    it is passed beside the request. *)
Definition MethodPut : string := "PUT".
Definition MethodDelete : string := "DELETE".
Definition StatusNotFound : Z := 404.

(** [strings.HasPrefix], returning what follows the prefix. *)
Fixpoint strip_prefix (prefix s : string) : option string :=
  match prefix with
  | EmptyString => Some s
  | String c prefix' =>
      match s with
      | EmptyString => None
      | String d s' => if decide (c = d) then strip_prefix prefix' s' else None
      end
  end.

(** [strings.TrimPrefix]: [s] without the leading [prefix], or [s] itself
    when it does not start with it. *)
Definition strings_TrimPrefix (s prefix : string) : string :=
  default s (strip_prefix prefix s).

(** The anonymous struct a PUT body is decoded into. *)
Record putRequest : Type := {
  put_Title : string;
  put_Description : string;
  put_Status : string;
}.

Section server_by_id.
Variable now : nat → Time.
Variable json_Decode_put : string → option putRequest.

Definition handleTaskByID (path : string) (r : Request) : M Response :=
  let id := strings_TrimPrefix path "/tasks/" in
  if decide (id = "") then
    jsonError StatusBadRequest "Task ID is required"
  else if decide (Method r = MethodGet) then
    '(task, err) ← Get id;
    match err with
    | Some e =>
        metrics_IncrementErrors ;;
        jsonError StatusNotFound (Error e)
    | None => jsonResponse StatusOK (data_Task task)
    end
  else if decide (Method r = MethodPut) then
    match json_Decode_put (Body r) with
    | None =>
        metrics_IncrementErrors ;;
        jsonError StatusBadRequest "Invalid request body"
    | Some req =>
        '(task, err) ← Update now id (put_Title req) (put_Description req)
                         (put_Status req);
        match err with
        | Some e =>
            metrics_IncrementErrors ;;
            jsonError StatusNotFound (Error e)
        | None => jsonResponse StatusOK (data_Task task)
        end
    end
  else if decide (Method r = MethodDelete) then
    err ← Delete id;
    match err with
    | Some e =>
        metrics_IncrementErrors ;;
        jsonError StatusNotFound (Error e)
    | None => jsonResponse StatusOK (data_map {["message" := "Task deleted"]})
    end
  else
    jsonError StatusMethodNotAllowed "Method not allowed".

End server_by_id.

End api.

(** ** package logger *)
Module logger.

Record Config : Type := { Level : string }.

Definition defaultConfig : Config := {| Level := "info" |}.

(** The four levels of [log/slog] that [newLogger] chooses from. *)
Inductive slog_Level : Type :=
  | LevelDebug
  | LevelInfo
  | LevelWarn
  | LevelError.

(** [newLogger], reduced to the level it gives the handler. *)
Definition newLogger (cfg : Config) : slog_Level :=
  if decide (Level cfg = "debug") then LevelDebug
  else if decide (Level cfg = "info") then LevelInfo
  else if decide (Level cfg = "warn") then LevelWarn
  else if decide (Level cfg = "error") then LevelError
  else LevelInfo.

End logger.

(** ** Vocabulary of the statements *)

Import tasks.

Definition err_title_required : error := errors_New "title is required".
Definition err_not_found : error := errors_New "task not found".
Definition err_invalid_data : error := errors_New "invalid task data".

(** The world after one [IncrementErrors]. *)
Definition count_error (w : World) : World :=
  upd_metrics metrics.IncrementErrors w.

Definition errors_of (w : World) : Z := metrics.GetErrors (st_metrics w).
Definition data_of (w : World) : gmap string any := storage.data (st_storage w).

Section outcomes.
Variable now : nat → Time.
Implicit Types (w : World) (id title description status : string).
Implicit Types (l : loc) (t : Task).

(** The Task that [Create] builds from three successive clock readings. *)
Definition created (title description : string) (w : World) : Task :=
  {| ID := "task-" +:+ pretty (UnixNano (now (st_ticks w)));
     Title := title;
     Description := description;
     Status := "pending";
     CreatedAt := now (S (st_ticks w));
     UpdatedAt := now (S (S (st_ticks w))) |}.

(** The world a successful [Create] leaves. *)
Definition after_Create (title description : string) (w : World) : World :=
  let T := created title description w in
  let l := fresh (dom (st_heap w)) in
  upd_storage (storage.Set_ (ID T) (any_Task (Some l)))
    (upd_heap (insert l T) (tick (tick (tick w)))).

(** The fields [Update] leaves in the cell. *)
Definition updated title description status (t_now : Time) t : Task :=
  {| ID := ID t;
     Title := if decide (title ≠ "") then title else Title t;
     Description :=
       if decide (description ≠ "") then description else Description t;
     Status := if decide (status ≠ "") then status else Status t;
     CreatedAt := CreatedAt t;
     UpdatedAt := t_now |}.

Definition after_Update id title description status l t w : World :=
  upd_storage (storage.Set_ id (any_Task (Some l)))
    (upd_heap (insert l (updated title description status
                           (now (st_ticks w)) t))
       (tick w)).

Definition after_Delete id w : World := upd_storage (storage.Delete id) w.

End outcomes.

(** Every count in the map is non-negative. *)
Definition counts_nonneg (m : gmap string Z) : Prop :=
  ∀ k n, m !! k = Some n → 0 <= n.

(** The response [jsonError] writes. *)
Definition error_response (status : Z) (message : string) : api.Response :=
  {| api.ContentType := "application/json";
     api.StatusCode := status;
     api.Encoded := api.data_map {["error" := message]} |}.

(** ** Sample inputs *)

(** A clock that advances at every reading, and one too coarse to. *)
Definition counting_clock : nat → Time := Z.of_nat.
Definition coarse_clock : nat → Time := λ _, 7.

(** The world a computation leaves (the one it started in, if it panics). *)
Definition world_after {A} (c : M A) (w : World) : World :=
  match c w with
  | Done _ w' => w'
  | Panic => w
  end.

(** Three tasks created on a fresh process, the first then completed. *)
Definition three_tasks : World :=
  world_after
    (Create counting_clock "A" "" ;;
     Create counting_clock "B" "" ;;
     Update counting_clock "task-0" "" "" "completed" ;;
     Create counting_clock "C" "x")
    initial.

(** The body of scenario 5, and a decoder that knows just that body. *)
Definition dquote : string := String (Ascii.ascii_of_nat 34) "".
Definition empty_title_body : string :=
  "{" +:+ dquote +:+ "title" +:+ dquote +:+ ":" +:+ dquote +:+ dquote +:+ "}".
Definition only_empty_title (body : string) : option api.postRequest :=
  if decide (body = empty_title_body)
  then Some {| api.Title := ""; api.Description := "" |}
  else None.

(** ** Vocabulary of the further statements *)

Definition requests_of (w : World) : Z := metrics.GetRequests (st_metrics w).

(** The world after one [IncrementRequests]. *)
Definition count_request (w : World) : World :=
  upd_metrics metrics.IncrementRequests w.

(** The lifecycle hooks of the database, in the order a container runs them. *)
Inductive hook : Type := Start | Stop.

Definition run_hook (d : database.db) (h : hook) : database.db :=
  match h with
  | Start => database.OnStart d
  | Stop => database.OnStop d
  end.

Definition run_hooks (hs : list hook) (d : database.db) : database.db :=
  foldl run_hook d hs.

(** Every stored value is a pointer to a Task cell whose id is the key it
    is stored under and whose title is not empty. *)
Definition consistent (w : World) : Prop :=
  ∀ k val, data_of w !! k = Some val →
    ∃ l t, val = any_Task (Some l) ∧ st_heap w !! l = Some t
           ∧ ID t = k ∧ Title t ≠ "".

(** Every Task cell was created no later than it was last updated, and no
    later than the clock's next reading. *)
Definition ordered_times (now : nat → Time) (w : World) : Prop :=
  ∀ l t, st_heap w !! l = Some t →
    CreatedAt t <= UpdatedAt t ∧ CreatedAt t <= now (st_ticks w).

(** A clock that never steps back. *)
Definition monotone (now : nat → Time) : Prop :=
  ∀ i j, (i <= j)%nat → now i <= now j.

(** The number of tasks of a list whose cell has the given status. *)
Definition with_status (w : World) (status : string) (tasks : list ptr) : nat :=
  length (filter (λ task : ptr,
                    Status <$> (task ≫= λ l, st_heap w !! l) = Some status)
            tasks).

(** The error response of a failed lookup, and the answer to a DELETE. *)
Definition deleted_response : api.Response :=
  {| api.ContentType := "application/json";
     api.StatusCode := 200;
     api.Encoded := api.data_map {["message" := "Task deleted"]} |}.

Definition task_response (status : Z) (task : ptr) : api.Response :=
  {| api.ContentType := "application/json";
     api.StatusCode := status;
     api.Encoded := api.data_Task task |}.

(** The world after the request counter and then the handler have run. *)
Definition handled (handler : api.Request → M api.Response)
    (r : api.Request) (w : World) : outcome api.Response :=
  api.loggingMiddleware handler r w.

(** The calls a client of the task manager can make. *)
Inductive call : Type :=
  | call_Create (title description : string)
  | call_Get (id : string)
  | call_List
  | call_Update (id title description status : string)
  | call_Delete (id : string)
  | call_GetStats.

Section calls.
Variable now : nat → Time.
Variable range : gmap string any → list (string * any).

(** One call, its result dropped. *)
Definition run_call (c : call) : M unit :=
  match c with
  | call_Create title description => Create now title description ;; ret tt
  | call_Get id => Get id ;; ret tt
  | call_List => List range ;; ret tt
  | call_Update id title description status =>
      Update now id title description status ;; ret tt
  | call_Delete id => Delete id ;; ret tt
  | call_GetStats => GetStats range ;; ret tt
  end.

Fixpoint run_calls (cs : list call) : M unit :=
  match cs with
  | [] => ret tt
  | c :: cs' => run_call c ;; run_calls cs'
  end.

End calls.

(** ** Further sample inputs *)

(** A session: two tasks, one completed, a lookup that fails, a deletion,
    and the statistics. *)
Definition sample_calls : list call :=
  [call_Create "A" ""; call_Create "B" "x"; call_Create "" "no title";
   call_Update "task-0" "" "" "completed"; call_Get "task-9";
   call_List; call_Delete "task-3"; call_GetStats].

(** A PUT decoder that reads every body as a change of status to
    "completed", one that reads none, and a POST decoder that reads every
    body as the task "Test" with description "d". *)
Definition completes (body : string) : option api.putRequest :=
  Some {| api.put_Title := ""; api.put_Description := "";
          api.put_Status := "completed" |}.
Definition unreadable_put (body : string) : option api.putRequest := None.
Definition posts_Test (body : string) : option api.postRequest :=
  Some {| api.Title := "Test"; api.Description := "d" |}.

(** A fresh process after one task was created, and one whose storage
    was handed something that is not a Task. *)
Definition one_task : World := after_Create counting_clock "Test" "d" initial.
Definition foreign_value : World :=
  upd_storage (storage.Set_ "note" (any_other "text")) initial.

Definition request (method : string) : api.Request :=
  {| api.Method := method; api.Body := "" |}.

(** * Properties *)

Lemma wrap64_small z : min_int64 <= z <= max_int64 -> wrap64 z = z.
Proof.
  unfold wrap64, min_int64, max_int64. intros Hz.
  rewrite Z.mod_small; lia.
Qed.

Lemma wrap64_range z : min_int64 <= wrap64 z <= max_int64.
Proof.
  unfold wrap64, min_int64, max_int64.
  pose proof (Z.mod_pos_bound (z + 2 ^ 63) (2 ^ 64)). lia.
Qed.

Lemma wrap64_succ_succ z : wrap64 (wrap64 (z + 1) + 1) = wrap64 (z + 2).
Proof.
  unfold wrap64.
  replace ((z + 1 + 2 ^ 63) mod 2 ^ 64 - 2 ^ 63 + 1 + 2 ^ 63)
    with ((z + 1 + 2 ^ 63) mod 2 ^ 64 + 1) by lia.
  rewrite Zplus_mod_idemp_l. do 2 f_equal. lia.
Qed.

(** ** database *)

(** C7: [Ping] returns an error, [context.DeadlineExceeded] (the one the
    handlers' taxonomy calls Unavailable), exactly when [IsConnected] is
    false, and returns no error exactly when [IsConnected] is true. *)
Theorem Ping_fails_iff_disconnected (d : database.db) :
  (database.Ping d = Some context_DeadlineExceeded
     ↔ database.IsConnected d = false)
  ∧ (is_Some (database.Ping d) ↔ database.IsConnected d = false)
  ∧ (database.Ping d = None ↔ database.IsConnected d = true).
Proof.
  unfold database.Ping, database.IsConnected.
  destruct (database.connected d); simpl;
    split_and!; split; try done; try (by eexists); by intros [e He].
Qed.

(** The hooks drive the probe: connected after start, not after stop. *)
Lemma Ping_after_hooks (d : database.db) :
  database.Ping (database.OnStart d) = None
  ∧ database.Ping (database.OnStop d) = Some context_DeadlineExceeded
  ∧ database.Ping database.newDatabase = Some context_DeadlineExceeded.
Proof. done. Qed.

(** ** storage *)

Section storage_facts.
Context {V : Type} (nil : V).
Implicit Types (s : storage.memoryStorage V) (k : string) (v : V).

Lemma Get_present s k v :
  storage.data s !! k = Some v → storage.Get nil k s = (v, true).
Proof. unfold storage.Get. by intros ->. Qed.

Lemma Get_absent s k :
  storage.data s !! k = None → storage.Get nil k s = (nil, false).
Proof. unfold storage.Get. by intros ->. Qed.

Lemma Delete_absent s k : storage.data s !! k = None → storage.Delete k s = s.
Proof.
  intros Hk. destruct s as [m]. unfold storage.Delete. simpl in *.
  f_equal. by apply delete_id.
Qed.

(** [List] returns a map with the bindings of the stored one. *)
Lemma List_copy s : storage.List s = storage.data s.
Proof.
  unfold storage.List.
  induction (storage.data s) as [|k v m Hk Hfold IH] using map_first_key_ind.
  - by rewrite map_fold_empty.
  - rewrite map_fold_insert_first_key by done. by rewrite IH.
Qed.

(** C8: after [Set k v], [Get k] is [(v, true)]; [Get k] reports absence
    exactly when [k] has no binding; [Delete k] leaves [k] unbound, changes
    nothing when [k] was unbound, and keeps every other key's binding. *)
Theorem storage_map_laws s k v :
  storage.Get nil k (storage.Set_ k v s) = (v, true)
  ∧ ((storage.Get nil k s).2 = false ↔ storage.data s !! k = None)
  ∧ storage.Get nil k (storage.Delete k s) = (nil, false)
  ∧ (storage.data s !! k = None → storage.Delete k s = s)
  ∧ (∀ k', k' ≠ k →
       storage.data (storage.Delete k s) !! k' = storage.data s !! k'
       ∧ storage.Get nil k' (storage.Delete k s) = storage.Get nil k' s).
Proof.
  repeat split.
  - apply Get_present. simpl. apply lookup_insert_eq.
  - unfold storage.Get. by destruct (storage.data s !! k).
  - unfold storage.Get. by intros ->.
  - apply Get_absent. simpl. apply lookup_delete_eq.
  - apply Delete_absent.
  - simpl. by apply lookup_delete_ne.
  - unfold storage.Get. simpl. by rewrite lookup_delete_ne.
Qed.

End storage_facts.

(** ** tasks *)

(** Unfolding one layer of calls on the shared objects. *)
Ltac run :=
  unfold mbind, M_bind, bind, mret, M_ret, ret,
    storage_Set, storage_Get, storage_Delete, storage_List,
    metrics_IncrementErrors, metrics_IncrementRequests,
    metrics_GetRequests, metrics_GetErrors, new, load; simpl.

Lemma errors_count_error w : errors_of (count_error w) = wrap64 (errors_of w + 1).
Proof. done. Qed.

Lemma data_count_error w : data_of (count_error w) = data_of w.
Proof. done. Qed.

Section Get_facts.
Implicit Types (w : World) (id : string).

Lemma Get_absent_id w id :
  data_of w !! id = None →
  Get id w = Done (None, Some err_not_found) (count_error w).
Proof.
  intros Hid. unfold Get. run.
  unfold data_of in Hid. by rewrite (Get_absent any_nil _ _ Hid).
Qed.

Lemma Get_stored_task w id (task : ptr) :
  data_of w !! id = Some (any_Task task) → Get id w = Done (task, None) w.
Proof.
  intros Hid. unfold Get. run.
  unfold data_of in Hid. by rewrite (Get_present any_nil _ _ _ Hid).
Qed.

Lemma Get_not_a_task w id (val : any) :
  data_of w !! id = Some val → as_Task val = None →
  Get id w = Done (None, Some err_invalid_data) (count_error w).
Proof.
  intros Hid Hval. unfold Get. run.
  unfold data_of in Hid. rewrite (Get_present any_nil _ _ _ Hid). simpl.
  by rewrite Hval.
Qed.

(** What [Get] returns is decided by the binding of the id alone. *)
Lemma Get_cases w id :
  (data_of w !! id = None
     ∧ Get id w = Done (None, Some err_not_found) (count_error w))
  ∨ (∃ task, data_of w !! id = Some (any_Task task)
       ∧ Get id w = Done (task, None) w)
  ∨ (∃ val, data_of w !! id = Some val ∧ as_Task val = None
       ∧ Get id w = Done (None, Some err_invalid_data) (count_error w)).
Proof.
  destruct (data_of w !! id) as [val|] eqn:Hid.
  - destruct val as [|task|v].
    + right; right. exists any_nil. split_and!; try done.
      by apply Get_not_a_task with any_nil.
    + right; left. exists task. split; [done|]. by apply Get_stored_task.
    + right; right. exists (any_other v). split_and!; try done.
      by apply Get_not_a_task with (any_other v).
  - left. split; [done|]. by apply Get_absent_id.
Qed.

(** C2 (as the code has it): [Get] fails with "task not found" when the id
    is absent and with "invalid task data" when the stored value is not a
    pointer to a Task, and in both cases it increments the error counter
    once and changes nothing else; when a Task pointer is stored it returns
    it and leaves the counter alone. *)
Theorem Get_counts_every_failure w id :
  (data_of w !! id = None →
     Get id w = Done (None, Some err_not_found) (count_error w))
  ∧ (∀ val, data_of w !! id = Some val → as_Task val = None →
       Get id w = Done (None, Some err_invalid_data) (count_error w))
  ∧ (∀ task, data_of w !! id = Some (any_Task task) →
       Get id w = Done (task, None) w)
  ∧ errors_of (count_error w) = wrap64 (errors_of w + 1)
  ∧ (min_int64 <= errors_of w < max_int64 →
       errors_of (count_error w) = errors_of w + 1)
  ∧ data_of (count_error w) = data_of w.
Proof.
  split_and!.
  - apply Get_absent_id.
  - intros val. apply Get_not_a_task.
  - intros task. apply Get_stored_task.
  - done.
  - intros Hrange. rewrite errors_count_error. apply wrap64_small. lia.
  - done.
Qed.

(** C2 as stated fails: on the empty storage [Get] of an absent id returns
    its error and leaves the error counter changed, 1 where it was 0. *)
Lemma Get_absent_counts_error :
  data_of initial !! "task-1" = None
  ∧ Get "task-1" initial
    = Done (None, Some err_not_found) (count_error initial)
  ∧ errors_of initial = 0
  ∧ errors_of (count_error initial) = 1
  ∧ errors_of (count_error initial) ≠ errors_of initial.
Proof. split_and!; done. Qed.

End Get_facts.

Section Create_facts.
Variable now : nat → Time.
Implicit Types (w : World) (title description : string).

Lemma Create_empty_title description w :
  Create now "" description w
  = Done (None, Some err_title_required) (count_error w).
Proof. done. Qed.

Lemma Create_titled title description w :
  title ≠ "" →
  Create now title description w
  = Done (Some (fresh (dom (st_heap w))), None)
         (after_Create now title description w).
Proof.
  intros Htitle. unfold Create. destruct (decide (title = "")); [done|].
  reflexivity.
Qed.

Lemma fresh_cell w : st_heap w !! fresh (dom (st_heap w)) = None.
Proof. apply not_elem_of_dom. apply is_fresh. Qed.

Lemma after_Create_cell title description w :
  st_heap (after_Create now title description w) !! fresh (dom (st_heap w))
  = Some (created now title description w).
Proof. simpl. apply lookup_insert_eq. Qed.

Lemma after_Create_binding title description w :
  data_of (after_Create now title description w)
    !! ID (created now title description w)
  = Some (any_Task (Some (fresh (dom (st_heap w))))).
Proof. unfold data_of. simpl. apply lookup_insert_eq. Qed.


(** C3 (as the code has it): with an empty title [Create] returns the
    error "title is required" and increments the error counter; with any
    other title it returns a pointer to a new Task whose id is "task-"
    followed by the nanoseconds of a first clock reading, with the given
    title and description, status "pending", and [CreatedAt] and
    [UpdatedAt] set to the next two clock readings (so equal exactly when
    those two coincide), and binds the id to that pointer in the storage,
    leaving the other bindings and the error counter as they were. *)
Theorem Create_result title description w :
  Create now "" description w
    = Done (None, Some err_title_required) (count_error w)
  ∧ errors_of (count_error w) = wrap64 (errors_of w + 1)
  ∧ (title ≠ "" →
     ∃ l T w',
       Create now title description w = Done (Some l, None) w'
       ∧ st_heap w !! l = None
       ∧ st_heap w' !! l = Some T
       ∧ ID T = "task-" +:+ pretty (UnixNano (now (st_ticks w)))
       ∧ Title T = title
       ∧ Description T = description
       ∧ Status T = "pending"
       ∧ CreatedAt T = now (S (st_ticks w))
       ∧ UpdatedAt T = now (S (S (st_ticks w)))
       ∧ (CreatedAt T = UpdatedAt T
            ↔ now (S (st_ticks w)) = now (S (S (st_ticks w))))
       ∧ data_of w' !! ID T = Some (any_Task (Some l))
       ∧ (∀ k, k ≠ ID T → data_of w' !! k = data_of w !! k)
       ∧ errors_of w' = errors_of w).
Proof.
  split_and!; [done..|]. intros Htitle.
  exists (fresh (dom (st_heap w))), (created now title description w),
    (after_Create now title description w).
  split_and!; try done.
  - by apply Create_titled.
  - apply fresh_cell.
  - apply after_Create_cell.
  - apply after_Create_binding.
  - intros k Hk. unfold data_of. simpl. by rewrite lookup_insert_ne.
Qed.

(** C4: when [Create] is given a non-empty title it returns a pointer to a
    Task [T], and [Get] of [T]'s id in the world [Create] left returns
    that same pointer without changing the world, so the Task read back
    is [T], field by field. *)
Theorem Create_then_Get title description w :
  title ≠ "" →
  ∃ task T w',
    Create now title description w = Done (task, None) w'
    ∧ load task w' = Done T w'
    ∧ ∃ task' T',
        Get (ID T) w' = Done (task', None) w'
        ∧ load task' w' = Done T' w'
        ∧ task' = task
        ∧ ID T' = ID T ∧ Title T' = Title T
        ∧ Description T' = Description T ∧ Status T' = Status T
        ∧ CreatedAt T' = CreatedAt T ∧ UpdatedAt T' = UpdatedAt T.
Proof.
  intros Htitle.
  exists (Some (fresh (dom (st_heap w)))), (created now title description w),
    (after_Create now title description w).
  assert (load (Some (fresh (dom (st_heap w))))
            (after_Create now title description w)
          = Done (created now title description w)
                 (after_Create now title description w)) as Hload.
  { unfold load. cbn [mbind option_bind].
    by rewrite after_Create_cell. }
  split_and!.
  - by apply Create_titled.
  - exact Hload.
  - exists (Some (fresh (dom (st_heap w)))), (created now title description w).
    split_and!; try done.
    apply Get_stored_task, after_Create_binding.
Qed.

(** C10: a [Create] with an empty title returns its error and leaves the
    storage (and the heap and the clock) as it found them; and whenever
    [Create] returns an error at all, the title was empty and the storage
    is the one it started from. *)
Theorem Create_failure_keeps_storage description w :
  (∃ w', Create now "" description w = Done (None, Some err_title_required) w'
         ∧ st_storage w' = st_storage w
         ∧ (∀ k, data_of w' !! k = data_of w !! k)
         ∧ st_heap w' = st_heap w)
  ∧ (∀ title task e w',
       Create now title description w = Done (task, Some e) w' →
       title = "" ∧ st_storage w' = st_storage w).
Proof.
  split.
  - exists (count_error w). by split_and!.
  - intros title task e w' Hrun.
    destruct (decide (title = "")) as [->|Htitle].
    + rewrite Create_empty_title in Hrun. by simplify_eq.
    + rewrite Create_titled in Hrun by done. by simplify_eq.
Qed.

End Create_facts.

(** C3 as stated fails on both counts. With a clock that advances at every
    reading the two timestamps of the created Task differ; with a clock too
    coarse to advance, a second [Create] returns the id the first one
    bound, and that binding is replaced. *)
Lemma Create_timestamps_and_id :
  (∃ l T w',
     Create counting_clock "Test" "d" initial = Done (Some l, None) w'
     ∧ st_heap w' !! l = Some T
     ∧ CreatedAt T = 1 ∧ UpdatedAt T = 2
     ∧ CreatedAt T ≠ UpdatedAt T)
  ∧ (∃ l1 w1 l2 T2 w2,
       Create coarse_clock "A" "" initial = Done (Some l1, None) w1
       ∧ data_of w1 !! "task-7" = Some (any_Task (Some l1))
       ∧ Create coarse_clock "B" "" w1 = Done (Some l2, None) w2
       ∧ st_heap w2 !! l2 = Some T2
       ∧ ID T2 = "task-7"
       ∧ data_of w1 !! ID T2 ≠ None
       ∧ l2 ≠ l1
       ∧ data_of w2 !! "task-7" = Some (any_Task (Some l2))).
Proof.
  split.
  - eexists _, _, _. split; [vm_compute; reflexivity|].
    split; [vm_compute; reflexivity|]. by split_and!.
  - eexists _, _, _, _, _. split; [vm_compute; reflexivity|].
    split; [vm_compute; reflexivity|].
    split; [vm_compute; reflexivity|].
    split; [vm_compute; reflexivity|].
    by split_and!.
Qed.

(** A run of [Create_then_Get]. *)
Lemma Create_then_Get_run :
  "Test" ≠ ""
  ∧ ∃ task T w',
      Create counting_clock "Test" "d" initial = Done (task, None) w'
      ∧ load task w' = Done T w'
      ∧ ∃ task' T',
          Get (ID T) w' = Done (task', None) w'
          ∧ load task' w' = Done T' w'
          ∧ task' = task
          ∧ ID T' = ID T ∧ Title T' = Title T
          ∧ Description T' = Description T ∧ Status T' = Status T
          ∧ CreatedAt T' = CreatedAt T ∧ UpdatedAt T' = UpdatedAt T.
Proof.
  split; [done|]. apply (Create_then_Get counting_clock "Test" "d" initial).
  done.
Defined.

Section Update_facts.
Variable now : nat → Time.
Implicit Types (w : World) (id title description status : string).
Implicit Types (l : loc) (t : Task).

Lemma modify_cell l t (f : Task → Task) w :
  st_heap w !! l = Some t →
  modify (Some l) f w = Done tt (upd_heap (insert l (f t)) w).
Proof. intros Hl. unfold modify. by rewrite Hl. Qed.

(** An assignment made only when the argument is non-empty leaves the cell
    holding the field chosen by the same test. *)
Lemma modify_if (P : Prop) `{!Decision P} l t (f : Task → Task) w :
  st_heap w !! l = Some t →
  (if decide P then modify (Some l) f else ret tt) w
  = Done tt (upd_heap (insert l (if decide P then f t else t)) w).
Proof.
  intros Hl. destruct (decide P).
  - by apply modify_cell.
  - unfold ret, upd_heap. destruct w as [s m h k]. simpl in *.
    by rewrite insert_id.
Qed.

Lemma upd_heap_twice l (t1 t2 : Task) w :
  upd_heap (insert l t2) (upd_heap (insert l t1) w) = upd_heap (insert l t2) w.
Proof. unfold upd_heap. simpl. by rewrite insert_insert_eq. Qed.

Lemma upd_heap_tick_twice l (t1 t2 : Task) w :
  upd_heap (insert l t2) (tick (upd_heap (insert l t1) w))
  = upd_heap (insert l t2) (tick w).
Proof. unfold upd_heap, tick. simpl. by rewrite insert_insert_eq. Qed.

Lemma upd_heap_cell l t w : st_heap (upd_heap (insert l t) w) !! l = Some t.
Proof. simpl. apply lookup_insert_eq. Qed.

Lemma Update_stored id title description status w l t :
  data_of w !! id = Some (any_Task (Some l)) →
  st_heap w !! l = Some t →
  Update now id title description status w
  = Done (Some l, None) (after_Update now id title description status l t w).
Proof.
  intros Hid Hl. unfold Update.
  unfold mbind at 1, M_bind at 1, bind at 1.
  rewrite (Get_stored_task _ _ _ Hid).
  unfold mbind at 1, M_bind at 1, bind at 1.
  rewrite (modify_if _ l t _ w Hl).
  unfold mbind at 1, M_bind at 1, bind at 1.
  rewrite (modify_if _ l _ _ _ (upd_heap_cell l _ w)), upd_heap_twice.
  unfold mbind at 1, M_bind at 1, bind at 1.
  rewrite (modify_if _ l _ _ _ (upd_heap_cell l _ w)), upd_heap_twice.
  unfold mbind at 1, M_bind at 1, bind at 1, time_Now.
  unfold mbind at 1, M_bind at 1, bind at 1.
  rewrite (modify_cell l _ _ (tick (upd_heap (insert l _) w))
             (upd_heap_cell l _ w)).
  rewrite upd_heap_tick_twice.
  unfold after_Update, updated.
  destruct (decide (title ≠ "")), (decide (description ≠ "")),
    (decide (status ≠ "")); reflexivity.
Qed.

Lemma Update_absent id title description status w :
  data_of w !! id = None →
  Update now id title description status w
  = Done (None, Some err_not_found) (count_error w).
Proof.
  intros Hid. unfold Update.
  unfold mbind at 1, M_bind at 1, bind at 1.
  by rewrite (Get_absent_id _ _ Hid).
Qed.

(** C5 (as the code has it): for a Task stored under [id], [Update]
    returns the pointer it is stored by; in the cell each of title,
    description and status is the argument when that is non-empty and
    unchanged when it is empty, the id and [CreatedAt] are unchanged, and
    [UpdatedAt] is the clock reading taken by the call, hence later than
    its previous value exactly when that reading is. *)
Theorem Update_result id title description status w l t :
  data_of w !! id = Some (any_Task (Some l)) →
  st_heap w !! l = Some t →
  ∃ t' w',
    Update now id title description status w = Done (Some l, None) w'
    ∧ st_heap w' !! l = Some t'
    ∧ data_of w' !! id = Some (any_Task (Some l))
    ∧ (title = "" → Title t' = Title t)
    ∧ (title ≠ "" → Title t' = title)
    ∧ (description = "" → Description t' = Description t)
    ∧ (description ≠ "" → Description t' = description)
    ∧ (status = "" → Status t' = Status t)
    ∧ (status ≠ "" → Status t' = status)
    ∧ ID t' = ID t
    ∧ CreatedAt t' = CreatedAt t
    ∧ UpdatedAt t' = now (st_ticks w)
    ∧ (UpdatedAt t < UpdatedAt t' ↔ UpdatedAt t < now (st_ticks w)).
Proof.
  intros Hid Hl.
  exists (updated title description status (now (st_ticks w)) t),
    (after_Update now id title description status l t w).
  split_and!; try done.
  - by apply Update_stored.
  - simpl. apply lookup_insert_eq.
  - unfold data_of. simpl. apply lookup_insert_eq.
  - intros ->. done.
  - intros Hne. simpl. by destruct (decide (title ≠ "")).
  - intros ->. done.
  - intros Hne. simpl. by destruct (decide (description ≠ "")).
  - intros ->. done.
  - intros Hne. simpl. by destruct (decide (status ≠ "")).
Qed.

End Update_facts.

(** C5 as stated fails: under a clock too coarse to advance between the
    calls, a Task created and then updated has the [UpdatedAt] it had. *)
Lemma Update_same_reading :
  ∃ l t w1 t' w2,
    Create coarse_clock "A" "" initial = Done (Some l, None) w1
    ∧ st_heap w1 !! l = Some t
    ∧ ID t = "task-7"
    ∧ Update coarse_clock "task-7" "" "" "completed" w1 = Done (Some l, None) w2
    ∧ st_heap w2 !! l = Some t'
    ∧ Status t' = "completed"
    ∧ UpdatedAt t = 7 ∧ UpdatedAt t' = 7
    ∧ ¬ UpdatedAt t < UpdatedAt t'.
Proof.
  eexists _, _, _, _, _. split; [vm_compute; reflexivity|].
  split; [vm_compute; reflexivity|]. split; [done|].
  split; [vm_compute; reflexivity|].
  split; [vm_compute; reflexivity|]. by split_and!.
Qed.

(** A run of [Update_result]: scenario 3 under a clock that advances. *)
Lemma Update_result_run :
  ∃ w l t,
    data_of w !! "task-0" = Some (any_Task (Some l))
    ∧ st_heap w !! l = Some t
    ∧ ∃ t' w',
        Update counting_clock "task-0" "" "" "completed" w
          = Done (Some l, None) w'
        ∧ st_heap w' !! l = Some t'
        ∧ data_of w' !! "task-0" = Some (any_Task (Some l))
        ∧ ("" = "" → Title t' = Title t)
        ∧ ("" ≠ "" → Title t' = "")
        ∧ ("" = "" → Description t' = Description t)
        ∧ ("" ≠ "" → Description t' = "")
        ∧ ("completed" = "" → Status t' = Status t)
        ∧ ("completed" ≠ "" → Status t' = "completed")
        ∧ ID t' = ID t
        ∧ CreatedAt t' = CreatedAt t
        ∧ UpdatedAt t' = counting_clock (st_ticks w)
        ∧ (UpdatedAt t < UpdatedAt t'
             ↔ UpdatedAt t < counting_clock (st_ticks w)).
Proof.
  exists (after_Create counting_clock "Test" "d" initial), 1%positive,
    (created counting_clock "Test" "d" initial).
  assert (data_of (after_Create counting_clock "Test" "d" initial) !! "task-0"
          = Some (any_Task (Some 1%positive))) as Hid
    by (vm_compute; reflexivity).
  assert (st_heap (after_Create counting_clock "Test" "d" initial) !! 1%positive
          = Some (created counting_clock "Test" "d" initial)) as Hl
    by (vm_compute; reflexivity).
  split; [exact Hid|]. split; [exact Hl|].
  exact (Update_result counting_clock "task-0" "" "" "completed" _ _ _ Hid Hl).
Defined.

Section Delete_facts.
Implicit Types (w : World) (id : string).

Lemma Delete_stored id w (task : ptr) :
  data_of w !! id = Some (any_Task task) →
  Delete id w = Done None (after_Delete id w).
Proof.
  intros Hid. unfold Delete. unfold mbind at 1, M_bind at 1, bind at 1.
  by rewrite (Get_stored_task _ _ _ Hid).
Qed.

Lemma Delete_absent_id id w :
  data_of w !! id = None →
  Delete id w = Done (Some err_not_found) (count_error w).
Proof.
  intros Hid. unfold Delete. unfold mbind at 1, M_bind at 1, bind at 1.
  by rewrite (Get_absent_id _ _ Hid).
Qed.

(** A [Delete] that reports no error found a Task pointer under the id
    and removed the binding. *)
Lemma Delete_success_inv id w w' :
  Delete id w = Done None w' →
  (∃ task, data_of w !! id = Some (any_Task task)) ∧ w' = after_Delete id w.
Proof.
  intros Hrun.
  destruct (Get_cases w id)
    as [[Hid _]|[(task & Hid & _)|(val & Hid & Hval & Hget)]].
  - by rewrite (Delete_absent_id _ _ Hid) in Hrun.
  - rewrite (Delete_stored _ _ _ Hid) in Hrun. simplify_eq. eauto.
  - unfold Delete in Hrun.
    unfold mbind at 1, M_bind at 1, bind at 1 in Hrun.
    by rewrite Hget in Hrun.
Qed.

Lemma after_Delete_unbound id w : data_of (after_Delete id w) !! id = None.
Proof. unfold data_of. simpl. apply lookup_delete_eq. Qed.

(** C6: once [Delete] of an id has returned no error, the id is unbound,
    so the next [Get] and the next [Delete] of it both return "task not
    found"; and [Delete] of an id that is absent returns "task not
    found". *)
Theorem Delete_then_not_found id w :
  (∀ w', Delete id w = Done None w' →
     data_of w' !! id = None
     ∧ Get id w' = Done (None, Some err_not_found) (count_error w')
     ∧ Delete id w' = Done (Some err_not_found) (count_error w'))
  ∧ (data_of w !! id = None →
       Delete id w = Done (Some err_not_found) (count_error w))
  ∧ (∀ task, data_of w !! id = Some (any_Task task) →
       Delete id w = Done None (after_Delete id w)).
Proof.
  split_and!.
  - intros w' Hrun. apply Delete_success_inv in Hrun as [_ ->].
    pose proof (after_Delete_unbound id w) as Hid. split_and!.
    + done.
    + by apply Get_absent_id.
    + by apply Delete_absent_id.
  - apply Delete_absent_id.
  - intros task. apply Delete_stored.
Qed.

End Delete_facts.

(** A run of [Delete_then_not_found]: scenario 4 on a Task just created. *)
Lemma Delete_then_not_found_run :
  ∃ w w',
    Delete "task-0" w = Done None w'
    ∧ data_of w' !! "task-0" = None
    ∧ Get "task-0" w' = Done (None, Some err_not_found) (count_error w')
    ∧ Delete "task-0" w' = Done (Some err_not_found) (count_error w').
Proof.
  exists (after_Create counting_clock "Test" "d" initial),
    (after_Delete "task-0" (after_Create counting_clock "Test" "d" initial)).
  assert (Delete "task-0" (after_Create counting_clock "Test" "d" initial)
          = Done None
              (after_Delete "task-0"
                 (after_Create counting_clock "Test" "d" initial))) as Hrun
    by (vm_compute; reflexivity).
  split; [exact Hrun|].
  exact (proj1 (Delete_then_not_found "task-0" _) _ Hrun).
Defined.

Section sum_counts_facts.
Implicit Types (m : gmap string Z) (k : string) (n : Z).

Lemma sum_counts_empty : sum_counts ∅ = 0.
Proof. apply map_fold_empty. Qed.

Lemma sum_counts_insert m k n :
  m !! k = None → sum_counts (<[k := n]> m) = n + sum_counts m.
Proof.
  intros Hk. unfold sum_counts.
  rewrite map_fold_insert_L; [done| |done]. intros. lia.
Qed.

Lemma sum_counts_delete m k n :
  m !! k = Some n → sum_counts m = n + sum_counts (delete k m).
Proof.
  intros Hk. rewrite <- (insert_delete_id m k n Hk) at 1.
  apply sum_counts_insert, lookup_delete_eq.
Qed.

Lemma counts_nonneg_empty : counts_nonneg ∅.
Proof. intros k n. by rewrite lookup_empty. Qed.

Lemma counts_nonneg_delete m k : counts_nonneg m → counts_nonneg (delete k m).
Proof.
  intros Hm k' n Hk'. apply lookup_delete_Some in Hk' as [_ Hk'].
  by apply (Hm k').
Qed.

Lemma counts_nonneg_insert m k n :
  counts_nonneg m → 0 <= n → counts_nonneg (<[k := n]> m).
Proof.
  intros Hm Hn k' n' Hk'. apply lookup_insert_Some in Hk' as [[_ <-]|[_ Hk']].
  - done.
  - by apply (Hm k').
Qed.

Lemma sum_counts_nonneg m : counts_nonneg m → 0 <= sum_counts m.
Proof.
  induction m as [|k n m Hk IH] using map_ind; intros Hm.
  - by rewrite sum_counts_empty.
  - rewrite sum_counts_insert by done.
    assert (0 <= n) by (apply (Hm k); apply lookup_insert_eq).
    assert (0 <= sum_counts m); [|lia].
    apply IH. intros k' n' Hk'. apply (Hm k').
    rewrite lookup_insert_ne; [done|]. intros <-. congruence.
Qed.

(** The count of a status, zero when it has none yet, is within the sum. *)
Lemma count_within_sum m k :
  counts_nonneg m →
  0 <= default 0 (m !! k) <= sum_counts m.
Proof.
  intros Hm. destruct (m !! k) as [n|] eqn:Hk; simpl.
  - rewrite (sum_counts_delete m k n Hk).
    pose proof (sum_counts_nonneg _ (counts_nonneg_delete m k Hm)).
    pose proof (Hm k n Hk). lia.
  - pose proof (sum_counts_nonneg m Hm). lia.
Qed.

(** One more task of status [k] adds one to the sum. *)
Lemma sum_counts_bump m k :
  sum_counts (<[k := default 0 (m !! k) + 1]> m) = sum_counts m + 1.
Proof.
  destruct (m !! k) as [n|] eqn:Hk; simpl.
  - rewrite <- insert_delete_eq.
    rewrite sum_counts_insert by apply lookup_delete_eq.
    rewrite (sum_counts_delete m k n Hk). lia.
  - rewrite sum_counts_insert by done. lia.
Qed.

End sum_counts_facts.

Section GetStats_facts.
Variable range : gmap string any → list (string * any).
Implicit Types (w : World) (tasks : list ptr) (m : gmap string Z).

(** The counting loop keeps the world, and adds the number of tasks to
    the sum as long as that number fits an [int]. *)
Lemma count_status_sum tasks : ∀ m w m' w',
  counts_nonneg m →
  sum_counts m + Z.of_nat (length tasks) <= max_int64 →
  count_status tasks m w = Done m' w' →
  w' = w
  ∧ counts_nonneg m'
  ∧ sum_counts m' = sum_counts m + Z.of_nat (length tasks).
Proof.
  induction tasks as [|task rest IH]; intros m w m' w' Hm Hfit Hrun.
  - simpl in Hrun. unfold mret, M_ret, ret in Hrun. simplify_eq.
    split_and!; [done..|]. simpl. lia.
  - simpl in Hrun. unfold mbind at 1, M_bind at 1, bind at 1, load in Hrun.
    destruct (task ≫= λ l, st_heap w !! l) as [t|]; [|done].
    pose proof (count_within_sum m (Status t) Hm) as Hcount.
    rewrite length_cons, Nat2Z.inj_succ in Hfit.
    rewrite wrap64_small in Hrun
      by (unfold min_int64, max_int64 in *; lia).
    apply IH in Hrun as (-> & Hm' & Hsum).
    + split_and!; [done..|]. rewrite Hsum, sum_counts_bump.
      rewrite length_cons, Nat2Z.inj_succ. lia.
    + apply counts_nonneg_insert; [done|lia].
    + rewrite sum_counts_bump. lia.
Qed.

(** The loop returns when every pointer it meets has a cell. *)
Lemma count_status_returns tasks : ∀ m w,
  Forall (λ task : ptr, is_Some (task ≫= λ l, st_heap w !! l)) tasks →
  ∃ m', count_status tasks m w = Done m' w.
Proof.
  induction tasks as [|task rest IH]; intros m w Hcells.
  - by eexists.
  - apply Forall_cons in Hcells as [[t Ht] Hrest]. simpl.
    unfold mbind at 1, M_bind at 1, bind at 1, load. rewrite Ht.
    by apply IH.
Qed.

Lemma List_run w :
  List range w
  = Done (omap (λ kv, as_Task kv.2) (range (data_of w))) w.
Proof. unfold List. run. by rewrite List_copy. Qed.

Lemma GetStats_run w :
  GetStats range w
  = match count_status (omap (λ kv, as_Task kv.2) (range (data_of w))) ∅ w with
    | Done statusCount w' =>
        Done {| total_tasks :=
                  Z.of_nat (length (omap (λ kv : string * any, as_Task kv.2)
                                      (range (data_of w))));
                total_requests := metrics.GetRequests (st_metrics w);
                total_errors := metrics.GetErrors (st_metrics w);
                by_status := statusCount |} w'
    | Panic => Panic
    end.
Proof.
  unfold GetStats. unfold mbind at 1, M_bind at 1, bind at 1.
  rewrite List_run. run.
  by destruct (count_status _ ∅ w).
Qed.

(** C9: in whatever order the stored values are visited, when [GetStats]
    returns (the number of tasks being one an [int] can hold, as the
    length of a slice is) the counts of [by_status] sum to [total_tasks],
    and the world is left as it was. *)
Theorem GetStats_by_status_sum w stats w' :
  GetStats range w = Done stats w' →
  total_tasks stats <= max_int64 →
  sum_counts (by_status stats) = total_tasks stats ∧ w' = w.
Proof.
  rewrite GetStats_run. intros Hrun Hfit.
  destruct (count_status _ ∅ w) as [statusCount w''|] eqn:Hloop; [|done].
  simplify_eq. simpl in *.
  apply count_status_sum in Hloop as (-> & _ & Hsum).
  - rewrite Hsum, sum_counts_empty. split; [lia|done].
  - apply counts_nonneg_empty.
  - rewrite sum_counts_empty. lia.
Qed.

(** [GetStats] does return when the loop visits bindings of the storage
    and every stored Task pointer has a cell. *)
Lemma GetStats_returns w :
  (∀ kv, kv ∈ range (data_of w) → data_of w !! kv.1 = Some kv.2) →
  (∀ k task, data_of w !! k = Some (any_Task task) →
             is_Some (task ≫= λ l, st_heap w !! l)) →
  ∃ stats, GetStats range w = Done stats w.
Proof.
  intros Hrange Hcells. rewrite GetStats_run.
  destruct (count_status_returns
              (omap (λ kv, as_Task kv.2) (range (data_of w))) ∅ w)
    as [statusCount ->]; [|by eexists].
  apply Forall_forall. intros task Htask.
  apply list_elem_of_omap in Htask as ([k val] & Hkv & Hval).
  destruct val as [|task'|v]; simplify_eq/=.
  apply (Hcells k). by apply (Hrange (k, any_Task task)).
Qed.

End GetStats_facts.

(** A run of [GetStats_by_status_sum]: three tasks, one of them completed,
    visited in the order of [map_to_list]. *)
Lemma GetStats_by_status_sum_run :
  ∃ stats,
    GetStats map_to_list three_tasks = Done stats three_tasks
    ∧ total_tasks stats <= max_int64
    ∧ total_tasks stats = 3
    ∧ by_status stats !! "pending" = Some 2
    ∧ by_status stats !! "completed" = Some 1
    ∧ sum_counts (by_status stats) = total_tasks stats.
Proof.
  eexists.
  assert (GetStats map_to_list three_tasks
          = Done {| total_tasks := 3; total_requests := 0; total_errors := 0;
                    by_status := <["pending" := 2]> {["completed" := 1]} |}
                 three_tasks) as Hrun
    by (vm_compute; reflexivity).
  assert (3 <= max_int64) as Hfit by (unfold max_int64; lia).
  split; [exact Hrun|]. split; [exact Hfit|].
  split; [reflexivity|]. split; [reflexivity|]. split; [reflexivity|].
  exact (proj1 (GetStats_by_status_sum map_to_list _ _ _ Hrun Hfit)).
Defined.

(** ** api *)

Section handleTasks_facts.
Variable now : nat → Time.
Variable range : gmap string any → list (string * any).
Variable json_Decode : string → option api.postRequest.
Implicit Types (r : api.Request) (req : api.postRequest) (w : World).

Lemma handleTasks_bad_body r w :
  api.Method r = "POST" → json_Decode (api.Body r) = None →
  api.handleTasks now range json_Decode r w
  = Done (error_response 400 "Invalid request body") (count_error w).
Proof.
  intros Hmethod Hbody. unfold api.handleTasks.
  rewrite Hmethod, Hbody. reflexivity.
Qed.

(** C1 (as the code has it): a POST whose body decodes to an empty title
    is answered 400 with the JSON object of the one field "error" set to
    "title is required", and the error counter has been incremented
    twice, once by [Create] and once by the handler; the storage is
    untouched. *)
Theorem handleTasks_empty_title r req w :
  api.Method r = "POST" →
  json_Decode (api.Body r) = Some req →
  api.Title req = "" →
  api.handleTasks now range json_Decode r w
    = Done (error_response 400 "title is required")
           (count_error (count_error w))
  ∧ errors_of (count_error (count_error w)) = wrap64 (errors_of w + 2)
  ∧ (min_int64 <= errors_of w ∧ errors_of w + 2 <= max_int64 →
       errors_of (count_error (count_error w)) = errors_of w + 2)
  ∧ data_of (count_error (count_error w)) = data_of w.
Proof.
  intros Hmethod Hbody Htitle.
  assert (errors_of (count_error (count_error w)) = wrap64 (errors_of w + 2))
    as Hcount.
  { rewrite !errors_count_error. apply wrap64_succ_succ. }
  split_and!.
  - unfold api.handleTasks. rewrite Hmethod, Hbody. simpl.
    unfold mbind at 1, M_bind at 1, bind at 1.
    rewrite Htitle, Create_empty_title. reflexivity.
  - exact Hcount.
  - intros [Hlo Hhi]. rewrite Hcount. apply wrap64_small.
    unfold min_int64, max_int64 in *. lia.
  - done.
Qed.

End handleTasks_facts.

(** C1 as stated fails: the POST of an empty title to a fresh process is
    answered 400 "title is required" and leaves the error counter at 2,
    not at 1. *)
Lemma handleTasks_empty_title_counts_twice :
  ∃ w',
    api.handleTasks counting_clock map_to_list only_empty_title
      {| api.Method := "POST"; api.Body := empty_title_body |} initial
    = Done (error_response 400 "title is required") w'
    ∧ errors_of initial = 0
    ∧ errors_of w' = 2
    ∧ errors_of w' ≠ errors_of initial + 1.
Proof. eexists. split; [vm_compute; reflexivity|]. by split_and!. Qed.

(** A run of [handleTasks_empty_title]: scenario 5 on a fresh process. *)
Lemma handleTasks_empty_title_run :
  api.handleTasks counting_clock map_to_list only_empty_title
    {| api.Method := "POST"; api.Body := empty_title_body |} initial
    = Done (error_response 400 "title is required")
           (count_error (count_error initial))
  ∧ errors_of (count_error (count_error initial)) = wrap64 (errors_of initial + 2)
  ∧ (min_int64 <= errors_of initial ∧ errors_of initial + 2 <= max_int64 →
       errors_of (count_error (count_error initial)) = errors_of initial + 2)
  ∧ data_of (count_error (count_error initial)) = data_of initial.
Proof.
  apply (handleTasks_empty_title counting_clock map_to_list only_empty_title
           {| api.Method := "POST"; api.Body := empty_title_body |}
           {| api.Title := ""; api.Description := "" |} initial);
    reflexivity.
Defined.

(** * Further properties *)

(** ** storage: writes to other keys, sizes, snapshots *)

Section storage_more.
Context {V : Type} (nil : V).
Implicit Types (s : storage.memoryStorage V) (k : string) (v : V).

Lemma Get_present_iff s k v :
  storage.Get nil k s = (v, true) ↔ storage.data s !! k = Some v.
Proof.
  unfold storage.Get. destruct (storage.data s !! k) as [v'|]; split;
    intros H; by simplify_eq.
Qed.

(** X1: a later [Set] of a key replaces an earlier one, a [Set] changes
    what [Get] returns for no other key, and [Set]s of different keys can be
    made in either order. *)
Theorem Set_last_write_wins s k v v' :
  storage.Set_ k v' (storage.Set_ k v s) = storage.Set_ k v' s
  ∧ (∀ k', k' ≠ k →
       storage.Get nil k' (storage.Set_ k v s) = storage.Get nil k' s)
  ∧ (∀ k', k' ≠ k →
       storage.Set_ k v (storage.Set_ k' v' s)
       = storage.Set_ k' v' (storage.Set_ k v s)).
Proof.
  split_and!.
  - unfold storage.Set_. simpl. by rewrite insert_insert_eq.
  - intros k' Hk'. unfold storage.Get. simpl. by rewrite lookup_insert_ne.
  - intros k' Hk'. unfold storage.Set_. simpl. f_equal.
    by apply insert_insert_ne.
Qed.

(** X2: [Count] grows by one on a [Set] of a key that was absent and is
    unchanged by a [Set] of one that was present; it shrinks by one on a
    [Delete] of a present key and is unchanged by a [Delete] of an absent
    one; it is never negative, and is zero for a new storage and after the
    stop hook. *)
Theorem Count_follows_writes s k v :
  storage.Count (storage.Set_ k v s)
    = (if (storage.Get nil k s).2 then storage.Count s else storage.Count s + 1)
  ∧ storage.Count (storage.Delete k s)
    = (if (storage.Get nil k s).2 then storage.Count s - 1 else storage.Count s)
  ∧ 0 <= storage.Count s
  ∧ storage.Count (storage.newStorage (V := V)) = 0
  ∧ storage.Count (storage.OnStop s) = 0.
Proof.
  unfold storage.Count, storage.Get. simpl. split_and!.
  - rewrite map_size_insert. destruct (storage.data s !! k); simpl; lia.
  - rewrite map_size_delete.
    destruct (storage.data s !! k) as [v'|] eqn:Hk; simpl; [|lia].
    assert (size (storage.data s) ≠ 0%nat); [|lia].
    intros Hsize. apply map_size_empty_inv in Hsize.
    rewrite Hsize in Hk. by rewrite lookup_empty in Hk.
  - lia.
  - by rewrite map_size_empty.
  - by rewrite map_size_empty.
Qed.

(** X3: the map [List] returns binds a key to a value exactly when [Get]
    finds that value under the key, and has [Count] bindings. *)
Theorem List_agrees_with_Get s k v :
  (storage.List s !! k = Some v ↔ storage.Get nil k s = (v, true))
  ∧ (storage.List s !! k = None ↔ (storage.Get nil k s).2 = false)
  ∧ Z.of_nat (size (storage.List s)) = storage.Count s.
Proof.
  rewrite List_copy. split_and!.
  - by rewrite Get_present_iff.
  - unfold storage.Get. by destruct (storage.data s !! k).
  - done.
Qed.

End storage_more.

(** ** metrics: the two counters *)

Lemma wrap64_add_l a b : wrap64 (wrap64 a + b) = wrap64 (a + b).
Proof.
  unfold wrap64.
  replace ((a + 2 ^ 63) mod 2 ^ 64 - 2 ^ 63 + b + 2 ^ 63)
    with ((a + 2 ^ 63) mod 2 ^ 64 + b) by lia.
  rewrite Zplus_mod_idemp_l. do 2 f_equal. lia.
Qed.

Lemma iter_IncrementErrors n m :
  metrics.GetRequests (Nat.iter n metrics.IncrementErrors m)
    = metrics.GetRequests m
  ∧ (n ≠ 0%nat →
     metrics.GetErrors (Nat.iter n metrics.IncrementErrors m)
       = wrap64 (metrics.GetErrors m + Z.of_nat n)).
Proof.
  induction n as [|n [IHr IHe]]; [done|]. simpl. split; [done|]. intros _.
  unfold metrics.GetErrors in *. simpl.
  destruct n as [|n].
  - simpl. done.
  - rewrite IHe by done. rewrite wrap64_add_l. f_equal. lia.
Qed.

Lemma iter_IncrementRequests n m :
  metrics.GetErrors (Nat.iter n metrics.IncrementRequests m)
    = metrics.GetErrors m
  ∧ (n ≠ 0%nat →
     metrics.GetRequests (Nat.iter n metrics.IncrementRequests m)
       = wrap64 (metrics.GetRequests m + Z.of_nat n)).
Proof.
  induction n as [|n [IHe IHr]]; [done|]. simpl. split; [done|]. intros _.
  unfold metrics.GetRequests in *. simpl.
  destruct n as [|n].
  - simpl. done.
  - rewrite IHr by done. rewrite wrap64_add_l. f_equal. lia.
Qed.

Lemma increments_commute n k m :
  Nat.iter k metrics.IncrementRequests (Nat.iter n metrics.IncrementErrors m)
  = Nat.iter n metrics.IncrementErrors (Nat.iter k metrics.IncrementRequests m).
Proof.
  induction k as [|k IH]; [done|]. simpl. rewrite IH. clear IH.
  induction n as [|n IH]; [done|]. simpl. by rewrite <- IH.
Qed.

(** X4: [n] calls of [IncrementErrors] and [k] calls of
    [IncrementRequests], with no overflow of either [int64], add [n] to
    the error counter and [k] to the request counter, whichever group
    comes first. *)
Theorem counters_count n k m :
  min_int64 <= metrics.GetErrors m →
  metrics.GetErrors m + Z.of_nat n <= max_int64 →
  min_int64 <= metrics.GetRequests m →
  metrics.GetRequests m + Z.of_nat k <= max_int64 →
  let m' := Nat.iter n metrics.IncrementErrors
              (Nat.iter k metrics.IncrementRequests m) in
  metrics.GetErrors m' = metrics.GetErrors m + Z.of_nat n
  ∧ metrics.GetRequests m' = metrics.GetRequests m + Z.of_nat k
  ∧ Nat.iter k metrics.IncrementRequests
      (Nat.iter n metrics.IncrementErrors m) = m'.
Proof.
  intros Helo Hehi Hrlo Hrhi m'.
  assert (∀ n x, min_int64 <= x → x + Z.of_nat n <= max_int64 →
            (if decide (n = 0%nat) then x else wrap64 (x + Z.of_nat n))
            = x + Z.of_nat n) as Hexact.
  { intros n' x Hlo Hhi. destruct (decide (n' = 0%nat)) as [->|_]; [lia|].
    apply wrap64_small. lia. }
  assert (∀ n m0, metrics.GetErrors (Nat.iter n metrics.IncrementErrors m0)
            = if decide (n = 0%nat) then metrics.GetErrors m0
              else wrap64 (metrics.GetErrors m0 + Z.of_nat n)) as He.
  { intros n' m0. destruct (decide (n' = 0%nat)) as [->|Hn]; [done|].
    by apply iter_IncrementErrors. }
  assert (∀ n m0, metrics.GetRequests (Nat.iter n metrics.IncrementRequests m0)
            = if decide (n = 0%nat) then metrics.GetRequests m0
              else wrap64 (metrics.GetRequests m0 + Z.of_nat n)) as Hr.
  { intros n' m0. destruct (decide (n' = 0%nat)) as [->|Hn]; [done|].
    by apply iter_IncrementRequests. }
  assert (metrics.GetErrors m' = metrics.GetErrors m + Z.of_nat n) as He'.
  { unfold m'. rewrite He.
    rewrite (proj1 (iter_IncrementRequests k m)). by apply Hexact. }
  assert (metrics.GetRequests m' = metrics.GetRequests m + Z.of_nat k) as Hr'.
  { unfold m'. rewrite (proj1 (iter_IncrementErrors n _)), Hr.
    by apply Hexact. }
  split_and!; [done..|]. apply increments_commute.
Qed.

(** A run of [counters_count]: three errors over five requests. *)
Lemma counters_count_run :
  let m' := Nat.iter 3 metrics.IncrementErrors
              (Nat.iter 5 metrics.IncrementRequests metrics.newMetrics) in
  metrics.GetErrors m' = 0 + 3
  ∧ metrics.GetRequests m' = 0 + 5
  ∧ Nat.iter 5 metrics.IncrementRequests
      (Nat.iter 3 metrics.IncrementErrors metrics.newMetrics) = m'.
Proof.
  apply (counters_count 3 5 metrics.newMetrics);
    unfold min_int64, max_int64; simpl; lia.
Defined.

(** ** database: the probe follows the hooks *)

(** X5: after any sequence of start and stop hooks, [IsConnected] holds and
    [Ping] succeeds exactly when the last hook run was the start hook;
    before any hook a new database is not connected. *)
Theorem probe_follows_last_hook (hs : list hook) (h : hook) (d : database.db) :
  (database.IsConnected (run_hooks (hs ++ [h]) d) = true ↔ h = Start)
  ∧ (database.Ping (run_hooks (hs ++ [h]) d) = None ↔ h = Start)
  ∧ (database.Ping (run_hooks (hs ++ [h]) d) = Some context_DeadlineExceeded
       ↔ h = Stop)
  ∧ database.IsConnected (run_hooks [] database.newDatabase) = false.
Proof.
  unfold run_hooks. rewrite foldl_app. simpl.
  destruct h; simpl; split_and!; split; done.
Qed.

(** ** logger: the level chosen *)

(** X6: [newLogger] gives the level named by the configuration when that
    is exactly "debug", "info", "warn" or "error", and the info level for
    every other string; so the level is info exactly when the string is
    none of "debug", "warn", "error". *)
Theorem newLogger_level (cfg : logger.Config) :
  (logger.newLogger cfg = logger.LevelDebug ↔ logger.Level cfg = "debug")
  ∧ (logger.newLogger cfg = logger.LevelWarn ↔ logger.Level cfg = "warn")
  ∧ (logger.newLogger cfg = logger.LevelError ↔ logger.Level cfg = "error")
  ∧ (logger.newLogger cfg = logger.LevelInfo
       ↔ logger.Level cfg ≠ "debug" ∧ logger.Level cfg ≠ "warn"
         ∧ logger.Level cfg ≠ "error")
  ∧ logger.newLogger logger.defaultConfig = logger.LevelInfo.
Proof.
  unfold logger.newLogger. destruct cfg as [level]. simpl.
  repeat case_decide; subst; split_and!; try done;
    split; try done; try congruence; intros (? & ? & ?); congruence.
Qed.

(** ** tasks: what the calls leave alone *)

Section manager_more.
Variable now : nat → Time.
Implicit Types (w : World) (id title description status : string).
Implicit Types (l : loc) (t : Task) (task : ptr).

Lemma Update_not_a_task id title description status w (val : any) :
  data_of w !! id = Some val → as_Task val = None →
  Update now id title description status w
  = Done (None, Some err_invalid_data) (count_error w).
Proof.
  intros Hid Hval. unfold Update.
  unfold mbind at 1, M_bind at 1, bind at 1.
  by rewrite (Get_not_a_task _ _ _ Hid Hval).
Qed.

Lemma Delete_not_a_task id w (val : any) :
  data_of w !! id = Some val → as_Task val = None →
  Delete id w = Done (Some err_invalid_data) (count_error w).
Proof.
  intros Hid Hval. unfold Delete.
  unfold mbind at 1, M_bind at 1, bind at 1.
  by rewrite (Get_not_a_task _ _ _ Hid Hval).
Qed.

Lemma after_Create_old_cell title description w l t :
  st_heap w !! l = Some t →
  st_heap (after_Create now title description w) !! l = Some t.
Proof.
  intros Hl. simpl. rewrite lookup_insert_ne; [done|].
  intros <-. by rewrite fresh_cell in Hl.
Qed.



(** X9: an [Update] that finds its Task writes one cell and nothing else:
    the storage map is the one it started with, every other cell is
    unchanged, both counters are where they were, and the clock has been
    read once. *)
Theorem Update_writes_one_cell id title description status w l t :
  data_of w !! id = Some (any_Task (Some l)) →
  st_heap w !! l = Some t →
  ∃ w', Update now id title description status w = Done (Some l, None) w'
    ∧ data_of w' = data_of w
    ∧ (∀ l', l' ≠ l → st_heap w' !! l' = st_heap w !! l')
    ∧ errors_of w' = errors_of w
    ∧ requests_of w' = requests_of w
    ∧ st_ticks w' = S (st_ticks w).
Proof.
  intros Hid Hl. eexists. split; [by apply Update_stored|].
  split_and!; try done.
  - unfold data_of in *. simpl. by apply insert_id.
  - intros l' Hl'. simpl. by rewrite lookup_insert_ne.
Qed.

(** X10: an [Update] of an id that is absent, or bound to something that
    is not a Task pointer, returns the error of [Get] ("task not found",
    "invalid task data"), counts one error, and changes nothing else: no
    cell is written, the storage is the same and the clock is not read. *)
Theorem Update_failure_changes_nothing id title description status w :
  (data_of w !! id = None →
     Update now id title description status w
     = Done (None, Some err_not_found) (count_error w))
  ∧ (∀ val, data_of w !! id = Some val → as_Task val = None →
       Update now id title description status w
       = Done (None, Some err_invalid_data) (count_error w))
  ∧ st_storage (count_error w) = st_storage w
  ∧ st_heap (count_error w) = st_heap w
  ∧ st_ticks (count_error w) = st_ticks w
  ∧ requests_of (count_error w) = requests_of w.
Proof.
  split_and!; try done.
  - apply Update_absent.
  - intros val. apply Update_not_a_task.
Qed.

End manager_more.

(** X11: a [Delete] that finds a Task pointer removes that one binding:
    every other id is bound as before, no cell is changed (a pointer
    returned earlier still reads the same Task), [Count] is one less, and
    the counters and the clock are untouched. *)
Theorem Delete_removes_one_binding (id : string) (w : World) (task : ptr) :
  data_of w !! id = Some (any_Task task) →
  ∃ w', Delete id w = Done None w'
    ∧ data_of w' !! id = None
    ∧ (∀ k, k ≠ id → data_of w' !! k = data_of w !! k)
    ∧ st_heap w' = st_heap w
    ∧ storage.Count (st_storage w') = storage.Count (st_storage w) - 1
    ∧ errors_of w' = errors_of w
    ∧ requests_of w' = requests_of w
    ∧ st_ticks w' = st_ticks w.
Proof.
  intros Hid. exists (after_Delete id w).
  split; [by apply (Delete_stored _ _ task)|].
  split_and!; try done.
  - apply after_Delete_unbound.
  - intros k Hk. unfold data_of. simpl. by rewrite lookup_delete_ne.
  - unfold storage.Count. simpl. unfold data_of in Hid.
    rewrite map_size_delete, Hid. simpl.
    assert (size (storage.data (st_storage w)) ≠ 0%nat); [|lia].
    intros Hsize. apply map_size_empty_inv in Hsize.
    rewrite Hsize in Hid. by rewrite lookup_empty in Hid.
Qed.

(** X12: a [Delete] of an id bound to something that is not a Task pointer
    returns "invalid task data", counts one error and leaves the binding in
    place, so a following [Get] or [Delete] of the id fails the same way. *)
Theorem Delete_keeps_what_is_not_a_task (id : string) (w : World) (val : any) :
  data_of w !! id = Some val →
  as_Task val = None →
  Delete id w = Done (Some err_invalid_data) (count_error w)
  ∧ data_of (count_error w) !! id = Some val
  ∧ Get id (count_error w)
    = Done (None, Some err_invalid_data) (count_error (count_error w))
  ∧ Delete id (count_error w)
    = Done (Some err_invalid_data) (count_error (count_error w)).
Proof.
  intros Hid Hval. split_and!; try done.
  - by apply (Delete_not_a_task id w val).
  - by apply (Get_not_a_task (count_error w) id val).
  - by apply (Delete_not_a_task id (count_error w) val).
Qed.

(** ** tasks: what [List] returns *)

Section List_more.
Variable now : nat → Time.
Variable range : gmap string any → list (string * any).
Implicit Types (w : World) (task : ptr).

Lemma length_omap_le {A B} (f : A → option B) (xs : list A) :
  (length (omap f xs) <= length xs)%nat.
Proof.
  induction xs as [|x xs IH]; [done|]. csimpl.
  destruct (f x); simpl in *; lia.
Qed.

Lemma length_omap_all {A B} (f : A → option B) (xs : list A) :
  (∀ x, x ∈ xs → f x ≠ None) → length (omap f xs) = length xs.
Proof.
  induction xs as [|x xs IH]; intros Hall; [done|]. csimpl.
  destruct (f x) eqn:Hx.
  - simpl. f_equal. apply IH. intros y Hy. apply Hall. by right.
  - destruct (Hall x); [by left|done].
Qed.

(** X13: [List] returns, and changes nothing; a pointer is in the slice it
    returns exactly when some id is bound to it in the storage, whatever
    order the map is visited in; the slice is no longer than [Count], and
    exactly that long when every stored value is a Task pointer. *)
Theorem List_returns_stored_tasks w :
  range (data_of w) ≡ₚ map_to_list (data_of w) →
  ∃ tasks,
    List range w = Done tasks w
    ∧ (∀ task, task ∈ tasks ↔ ∃ k, data_of w !! k = Some (any_Task task))
    ∧ Z.of_nat (length tasks) <= storage.Count (st_storage w)
    ∧ ((∀ k val, data_of w !! k = Some val → as_Task val ≠ None) →
       Z.of_nat (length tasks) = storage.Count (st_storage w)).
Proof.
  intros Hrange. eexists. split; [apply List_run|].
  assert (length (range (data_of w)) = size (data_of w)) as Hlen.
  { by rewrite Hrange, length_map_to_list. }
  split_and!.
  - intros task. rewrite list_elem_of_omap. split.
    + intros ([k val] & Hkv & Hval). rewrite Hrange in Hkv.
      apply elem_of_map_to_list in Hkv. exists k.
      destruct val; by simplify_eq/=.
    + intros [k Hk]. exists (k, any_Task task). split; [|done].
      rewrite Hrange. by apply elem_of_map_to_list.
  - unfold storage.Count. fold (data_of w). rewrite <- Hlen.
    apply inj_le, length_omap_le.
  - intros Hall. unfold storage.Count. fold (data_of w). rewrite <- Hlen.
    f_equal. apply length_omap_all. intros [k val] Hkv. simpl.
    rewrite Hrange in Hkv. apply elem_of_map_to_list in Hkv.
    by apply (Hall k).
Qed.

(** X14: a [Create] under an id that was not bound adds exactly its
    pointer to what [List] returns. *)
Theorem List_after_Create title description w :
  title ≠ "" →
  data_of w !! ID (created now title description w) = None →
  range (data_of w) ≡ₚ map_to_list (data_of w) →
  range (data_of (after_Create now title description w))
    ≡ₚ map_to_list (data_of (after_Create now title description w)) →
  ∃ l w' tasks tasks',
    Create now title description w = Done (Some l, None) w'
    ∧ List range w = Done tasks w
    ∧ List range w' = Done tasks' w'
    ∧ tasks' ≡ₚ Some l :: tasks.
Proof.
  intros Htitle Hid Hrange Hrange'.
  eexists _, _, _, _. split; [by apply Create_titled|].
  split; [apply List_run|]. split; [apply List_run|].
  rewrite Hrange', Hrange. unfold data_of at 1. simpl.
  rewrite map_to_list_insert by done. reflexivity.
Qed.

(** X15: a [Delete] that succeeds removes exactly one pointer, the one the
    id was bound to, from what [List] returns. *)
Theorem List_after_Delete (id : string) w w' :
  Delete id w = Done None w' →
  range (data_of w) ≡ₚ map_to_list (data_of w) →
  range (data_of w') ≡ₚ map_to_list (data_of w') →
  ∃ task tasks tasks',
    data_of w !! id = Some (any_Task task)
    ∧ List range w = Done tasks w
    ∧ List range w' = Done tasks' w'
    ∧ tasks ≡ₚ task :: tasks'.
Proof.
  intros Hrun Hrange Hrange'.
  apply Delete_success_inv in Hrun as [[task Hid] ->].
  exists task. eexists _, _. split; [done|].
  split; [apply List_run|]. split; [apply List_run|].
  rewrite Hrange', Hrange. unfold data_of at 1. simpl.
  rewrite <- (map_to_list_delete _ _ _ Hid). reflexivity.
Qed.

End List_more.

(** A run of [List_returns_stored_tasks] on the three sample tasks. *)
Lemma List_returns_stored_tasks_run :
  ∃ tasks,
    List map_to_list three_tasks = Done tasks three_tasks
    ∧ (∀ task, task ∈ tasks
         ↔ ∃ k, data_of three_tasks !! k = Some (any_Task task))
    ∧ Z.of_nat (length tasks) <= storage.Count (st_storage three_tasks)
    ∧ ((∀ k val, data_of three_tasks !! k = Some val → as_Task val ≠ None) →
       Z.of_nat (length tasks) = storage.Count (st_storage three_tasks)).
Proof.
  apply (List_returns_stored_tasks map_to_list three_tasks). reflexivity.
Defined.

(** A run of [List_after_Create]: the first task of a fresh process. *)
Lemma List_after_Create_run :
  ∃ l w' tasks tasks',
    Create counting_clock "Test" "d" initial = Done (Some l, None) w'
    ∧ List map_to_list initial = Done tasks initial
    ∧ List map_to_list w' = Done tasks' w'
    ∧ tasks' ≡ₚ Some l :: tasks.
Proof.
  apply (List_after_Create counting_clock map_to_list "Test" "d" initial).
  - done.
  - reflexivity.
  - reflexivity.
  - reflexivity.
Defined.

(** A run of [List_after_Delete]: deleting the first of the three tasks. *)
Lemma List_after_Delete_run :
  ∃ task tasks tasks',
    data_of three_tasks !! "task-0" = Some (any_Task task)
    ∧ List map_to_list three_tasks = Done tasks three_tasks
    ∧ List map_to_list (after_Delete "task-0" three_tasks)
      = Done tasks' (after_Delete "task-0" three_tasks)
    ∧ tasks ≡ₚ task :: tasks'.
Proof.
  apply (List_after_Delete map_to_list "task-0" three_tasks
           (after_Delete "task-0" three_tasks)).
  - vm_compute. reflexivity.
  - reflexivity.
  - reflexivity.
Defined.

(** ** tasks: the counts of [GetStats], status by status *)

Section GetStats_more.
Variable range : gmap string any → list (string * any).
Implicit Types (w : World) (tasks : list ptr) (m : gmap string Z).

Lemma by_status_lookup m (status : string) :
  (∃ n, m !! status = Some n) ∨ m !! status = None.
Proof. destruct (m !! status); eauto. Qed.

(** Counts that are all positive are not negative. *)
Lemma counts_pos_nonneg m :
  (∀ k n, m !! k = Some n → 0 < n) → counts_nonneg m.
Proof. intros Hm k n Hk. apply Hm in Hk. lia. Qed.

Lemma with_status_cons w status (task : ptr) t tasks :
  task ≫= (λ l, st_heap w !! l) = Some t →
  with_status w status (task :: tasks)
  = ((if decide (Status t = status) then 1 else 0)
     + with_status w status tasks)%nat.
Proof.
  intros Ht. unfold with_status. rewrite filter_cons, Ht. simpl.
  destruct (decide (Some (Status t) = Some status)) as [Heq|Hne];
    destruct (decide (Status t = status)) as [Heq'|Hne']; simpl;
    try done; congruence.
Qed.

(** The loop adds, to the count of each status, the number of tasks of
    that status it has visited, and leaves no count at zero. *)
Lemma count_status_per_status tasks : ∀ m w m' w',
  (∀ k n, m !! k = Some n → 0 < n) →
  sum_counts m + Z.of_nat (length tasks) <= max_int64 →
  count_status tasks m w = Done m' w' →
  (∀ k n, m' !! k = Some n → 0 < n)
  ∧ ∀ status,
      default 0 (m' !! status)
      = default 0 (m !! status) + Z.of_nat (with_status w status tasks).
Proof.
  induction tasks as [|task rest IH]; intros m w m' w' Hm Hfit Hrun.
  - simpl in Hrun. unfold mret, M_ret, ret in Hrun. simplify_eq.
    split; [done|]. intros status. unfold with_status. simpl. lia.
  - simpl in Hrun. unfold mbind at 1, M_bind at 1, bind at 1, load in Hrun.
    destruct (task ≫= λ l, st_heap w !! l) as [t|] eqn:Ht; [|done].
    pose proof (count_within_sum m (Status t) (counts_pos_nonneg m Hm))
      as Hcount.
    rewrite length_cons, Nat2Z.inj_succ in Hfit.
    rewrite wrap64_small in Hrun
      by (unfold min_int64, max_int64 in *; lia).
    apply IH in Hrun as [Hm' Hsum].
    + split; [done|]. intros status. rewrite Hsum.
      rewrite (with_status_cons w status task t rest Ht).
      destruct (decide (Status t = status)) as [<-|Hne].
      * rewrite lookup_insert_eq. simpl. lia.
      * rewrite lookup_insert_ne by done. simpl. lia.
    + intros k n Hk. apply lookup_insert_Some in Hk as [[_ <-]|[_ Hk]].
      * lia.
      * by apply (Hm k).
    + rewrite sum_counts_bump. lia.
Qed.

(** X16: when [GetStats] returns (with a number of tasks an [int] can
    hold), [by_status] has, for each status, the number of listed tasks
    whose cell has that status, and no entry for a status no task has. *)
Theorem GetStats_counts_each_status w stats w' :
  GetStats range w = Done stats w' →
  total_tasks stats <= max_int64 →
  ∃ tasks,
    List range w = Done tasks w
    ∧ total_tasks stats = Z.of_nat (length tasks)
    ∧ total_requests stats = requests_of w
    ∧ total_errors stats = errors_of w
    ∧ ∀ status,
        by_status stats !! status
        = (if decide (with_status w status tasks = 0%nat) then None
           else Some (Z.of_nat (with_status w status tasks))).
Proof.
  rewrite GetStats_run. intros Hrun Hfit.
  destruct (count_status _ ∅ w) as [statusCount w''|] eqn:Hloop; [|done].
  simplify_eq. simpl in *.
  eexists. split; [apply List_run|]. split_and!; try done.
  apply count_status_per_status in Hloop as [Hpos Hcount].
  - intros status. specialize (Hcount status).
    rewrite lookup_empty in Hcount. simpl in Hcount.
    destruct (by_status_lookup statusCount status) as [[n Hn]|Hn].
    + rewrite Hn in *. simpl in Hcount. apply Hpos in Hn as Hn'.
      destruct (decide _) as [Hz|Hz]; [lia|]. f_equal. lia.
    + rewrite Hn in *. simpl in Hcount.
      destruct (decide _) as [Hz|Hz]; [done|lia].
  - intros k n. by rewrite lookup_empty.
  - rewrite sum_counts_empty. lia.
Qed.

End GetStats_more.

(** A run of [GetStats_counts_each_status] on the three sample tasks. *)
Lemma GetStats_counts_each_status_run :
  ∃ stats tasks,
    GetStats map_to_list three_tasks = Done stats three_tasks
    ∧ total_tasks stats <= max_int64
    ∧ List map_to_list three_tasks = Done tasks three_tasks
    ∧ total_tasks stats = Z.of_nat (length tasks)
    ∧ total_requests stats = requests_of three_tasks
    ∧ total_errors stats = errors_of three_tasks
    ∧ ∀ status,
        by_status stats !! status
        = (if decide (with_status three_tasks status tasks = 0%nat) then None
           else Some (Z.of_nat (with_status three_tasks status tasks))).
Proof.
  assert (GetStats map_to_list three_tasks
          = Done {| total_tasks := 3; total_requests := 0; total_errors := 0;
                    by_status := <["pending" := 2]> {["completed" := 1]} |}
                 three_tasks) as Hrun
    by (vm_compute; reflexivity).
  assert (3 <= max_int64) as Hfit by (unfold max_int64; lia).
  destruct (GetStats_counts_each_status map_to_list _ _ _ Hrun Hfit)
    as (tasks & Hlist & Hrest).
  exists {| total_tasks := 3; total_requests := 0; total_errors := 0;
            by_status := <["pending" := 2]> {["completed" := 1]} |}, tasks.
  split; [exact Hrun|]. split; [exact Hfit|]. split; [exact Hlist|].
  exact Hrest.
Defined.

(** ** tasks: invariants of the stored tasks over any sequence of calls *)

Section invariants.
Variable now : nat → Time.
Variable range : gmap string any → list (string * any).
Implicit Types (w : World) (id title description status : string).
Implicit Types (l : loc) (t : Task) (c : call) (cs : list call).

(** The worlds each call can leave. *)
Lemma Get_inv id w r w' :
  Get id w = Done r w' → w' = w ∨ w' = count_error w.
Proof.
  intros Hrun.
  destruct (Get_cases w id)
    as [[_ Hget]|[(task & _ & Hget)|(val & _ & _ & Hget)]];
    rewrite Hget in Hrun; simplify_eq; auto.
Qed.

Lemma Create_inv title description w r w' :
  Create now title description w = Done r w' →
  w' = count_error w
  ∨ (title ≠ "" ∧ w' = after_Create now title description w).
Proof.
  intros Hrun. destruct (decide (title = "")) as [->|Htitle].
  - rewrite Create_empty_title in Hrun. simplify_eq. auto.
  - rewrite Create_titled in Hrun by done. simplify_eq. auto.
Qed.

Lemma Update_inv id title description status w r w' :
  Update now id title description status w = Done r w' →
  w' = count_error w
  ∨ (∃ l t, data_of w !! id = Some (any_Task (Some l))
            ∧ st_heap w !! l = Some t
            ∧ w' = after_Update now id title description status l t w).
Proof.
  intros Hrun.
  destruct (Get_cases w id)
    as [[Hid _]|[(task & Hid & Hget)|(val & Hid & Hval & _)]].
  - rewrite Update_absent in Hrun by done. simplify_eq. auto.
  - destruct task as [l|].
    + destruct (st_heap w !! l) as [t|] eqn:Hl.
      * rewrite (Update_stored now _ _ _ _ _ _ _ Hid Hl) in Hrun.
        simplify_eq. right. eauto.
      * exfalso. unfold Update in Hrun.
        unfold mbind at 1, M_bind at 1, bind at 1 in Hrun.
        rewrite Hget in Hrun.
        repeat (unfold mbind at 1, M_bind at 1, bind at 1 in Hrun).
        unfold modify, ret, time_Now in Hrun. simpl in Hrun.
        repeat (case_decide; simpl in Hrun; rewrite ?Hl in Hrun);
          simpl in Hrun; rewrite ?Hl in Hrun; done.
    + exfalso. unfold Update in Hrun.
      unfold mbind at 1, M_bind at 1, bind at 1 in Hrun.
      rewrite Hget in Hrun.
      repeat (unfold mbind at 1, M_bind at 1, bind at 1 in Hrun).
      unfold modify, ret, time_Now in Hrun.
      repeat (case_decide; simpl in Hrun); done.
  - rewrite (Update_not_a_task now _ _ _ _ _ _ Hid Hval) in Hrun.
    simplify_eq. auto.
Qed.

Lemma Delete_inv id w r w' :
  Delete id w = Done r w' → w' = count_error w ∨ w' = after_Delete id w.
Proof.
  intros Hrun.
  destruct (Get_cases w id)
    as [[Hid _]|[(task & Hid & _)|(val & Hid & Hval & _)]].
  - rewrite Delete_absent_id in Hrun by done. simplify_eq. auto.
  - rewrite (Delete_stored _ _ _ Hid) in Hrun. simplify_eq. auto.
  - rewrite (Delete_not_a_task _ _ _ Hid Hval) in Hrun. simplify_eq. auto.
Qed.

Lemma count_status_world tasks : ∀ m w m' w',
  count_status tasks m w = Done m' w' → w' = w.
Proof.
  induction tasks as [|task rest IH]; intros m w m' w' Hrun.
  - simpl in Hrun. unfold mret, M_ret, ret in Hrun. by simplify_eq.
  - simpl in Hrun. unfold mbind at 1, M_bind at 1, bind at 1, load in Hrun.
    destruct (task ≫= λ l, st_heap w !! l); [|done]. by apply IH in Hrun.
Qed.

Lemma GetStats_inv w r w' : GetStats range w = Done r w' → w' = w.
Proof.
  rewrite GetStats_run. intros Hrun.
  destruct (count_status _ ∅ w) as [m w''|] eqn:Hloop; [|done].
  apply count_status_world in Hloop. by simplify_eq.
Qed.

(** [consistent] through each change of the world. *)
Lemma consistent_initial : consistent initial.
Proof. intros k val Hk. unfold data_of in Hk. simpl in Hk. done. Qed.

Lemma consistent_count_error w : consistent w → consistent (count_error w).
Proof. done. Qed.

Lemma consistent_after_Create title description w :
  title ≠ "" → consistent w →
  consistent (after_Create now title description w).
Proof.
  intros Htitle Hw k val Hk. unfold data_of in Hk. simpl in Hk.
  apply lookup_insert_Some in Hk as [[<- <-]|[Hne Hk]].
  - eexists _, _. split; [done|]. split; [apply after_Create_cell|]. done.
  - destruct (Hw k val Hk) as (l & t & -> & Hl & Hid & Ht).
    exists l, t. split; [done|]. split; [|done].
    by apply after_Create_old_cell.
Qed.

Lemma consistent_after_Update id title description status l t w :
  data_of w !! id = Some (any_Task (Some l)) →
  st_heap w !! l = Some t →
  consistent w →
  consistent (after_Update now id title description status l t w).
Proof.
  intros Hid Hl Hw k val Hk.
  destruct (Hw id _ Hid) as (l0 & t0 & [= <-] & Hl0 & Hid0 & Ht0).
  assert (t0 = t) as -> by congruence.
  unfold data_of in Hk. simpl in Hk.
  apply lookup_insert_Some in Hk as [[<- <-]|[Hne Hk]].
  - eexists _, _. split; [done|]. split; [apply lookup_insert_eq|].
    split; [done|]. simpl. by destruct (decide (title ≠ "")).
  - destruct (Hw k val Hk) as (l' & t' & -> & Hl' & Hid' & Ht').
    exists l', t'. split; [done|]. split; [|done]. simpl.
    rewrite lookup_insert_ne; [done|]. intros <-. congruence.
Qed.

Lemma consistent_after_Delete id w :
  consistent w → consistent (after_Delete id w).
Proof.
  intros Hw k val Hk. unfold data_of in Hk. simpl in Hk.
  apply lookup_delete_Some in Hk as [_ Hk]. by apply Hw.
Qed.

(** In a consistent world no call panics, and each leaves it consistent. *)
Lemma run_call_consistent c w :
  (∀ m kv, kv ∈ range m → m !! kv.1 = Some kv.2) →
  consistent w →
  ∃ w', run_call now range c w = Done tt w' ∧ consistent w'.
Proof.
  intros Hrange Hw. destruct c as [title description|id| |id title description
    status|id|]; unfold run_call;
    unfold mbind at 1, M_bind at 1, bind at 1, ret.
  - destruct (decide (title = "")) as [->|Htitle].
    + rewrite Create_empty_title. eauto using consistent_count_error.
    + rewrite Create_titled by done.
      eauto using consistent_after_Create.
  - destruct (Get_cases w id)
      as [[_ ->]|[(task & _ & ->)|(val & _ & _ & ->)]];
      eauto using consistent_count_error.
  - rewrite List_run. eauto.
  - destruct (data_of w !! id) as [val|] eqn:Hid.
    + destruct (Hw id val Hid) as (l & t & -> & Hl & _).
      rewrite (Update_stored now _ _ _ _ _ _ _ Hid Hl).
      eauto using consistent_after_Update.
    + rewrite Update_absent by done. eauto using consistent_count_error.
  - destruct (data_of w !! id) as [val|] eqn:Hid.
    + destruct (Hw id val Hid) as (l & t & -> & Hl & _).
      rewrite (Delete_stored _ _ _ Hid).
      eauto using consistent_after_Delete.
    + rewrite Delete_absent_id by done. eauto using consistent_count_error.
  - destruct (GetStats_returns range w) as [stats ->]; [by auto| |by eauto].
    intros k task Hk. destruct (Hw k _ Hk) as (l & t & [= ->] & Hl & _).
    simpl. by rewrite Hl.
Qed.

(** X17: from a fresh process, whatever calls are made on the task manager
    and in whatever order, none of them panics, and afterwards every value
    in the storage is a pointer to a Task cell whose id is the key it is
    stored under and whose title is not empty; so each id names at most
    one Task. *)
Theorem calls_keep_storage_consistent cs :
  (∀ m kv, kv ∈ range m → m !! kv.1 = Some kv.2) →
  ∃ w', run_calls now range cs initial = Done tt w'
    ∧ consistent w'
    ∧ (∀ k1 k2 l, data_of w' !! k1 = Some (any_Task (Some l)) →
                  data_of w' !! k2 = Some (any_Task (Some l)) → k1 = k2).
Proof.
  intros Hrange.
  assert (∀ w, consistent w →
            ∃ w', run_calls now range cs w = Done tt w' ∧ consistent w')
    as Hall.
  { induction cs as [|c cs IH]; intros w Hw.
    - exists w. by split.
    - simpl. unfold mbind at 1, M_bind at 1, bind at 1.
      destruct (run_call_consistent c w Hrange Hw) as (w1 & -> & Hw1).
      by apply IH. }
  destruct (Hall initial consistent_initial) as (w' & Hrun & Hw').
  exists w'. split_and!; [done..|].
  intros k1 k2 l Hk1 Hk2.
  destruct (Hw' k1 _ Hk1) as (l1 & t1 & [= <-] & Hl1 & <- & _).
  destruct (Hw' k2 _ Hk2) as (l2 & t2 & [= <-] & Hl2 & <- & _).
  congruence.
Qed.

(** [ordered_times] through each change of the world. *)
Lemma ordered_times_initial : ordered_times now initial.
Proof. intros l t Hl. simpl in Hl. done. Qed.

Lemma ordered_times_after_Create title description w :
  monotone now → ordered_times now w →
  ordered_times now (after_Create now title description w).
Proof.
  intros Hmono Hw l t Hl. simpl in Hl.
  apply lookup_insert_Some in Hl as [[_ <-]|[_ Hl]]; simpl.
  - split; apply Hmono; lia.
  - destruct (Hw l t Hl) as [Hcu Hcn]. split; [done|].
    etrans; [exact Hcn|]. apply Hmono. lia.
Qed.

Lemma ordered_times_after_Update id title description status l t w :
  monotone now → st_heap w !! l = Some t → ordered_times now w →
  ordered_times now (after_Update now id title description status l t w).
Proof.
  intros Hmono Hl Hw l' t' Hl'. simpl in Hl'.
  apply lookup_insert_Some in Hl' as [[_ <-]|[_ Hl']]; simpl.
  - destruct (Hw l t Hl) as [_ Hcn]. split; [done|].
    etrans; [exact Hcn|]. apply Hmono. lia.
  - destruct (Hw l' t' Hl') as [Hcu Hcn]. split; [done|].
    etrans; [exact Hcn|]. apply Hmono. lia.
Qed.

Lemma run_call_ordered_times c w w' :
  monotone now → ordered_times now w →
  run_call now range c w = Done tt w' → ordered_times now w'.
Proof.
  intros Hmono Hw Hrun. destruct c as [title description|id| |id title
    description status|id|]; unfold run_call in Hrun;
    unfold mbind at 1, M_bind at 1, bind at 1, ret in Hrun.
  - destruct (Create now title description w) as [r w1|] eqn:Hc; [|done].
    simplify_eq. apply Create_inv in Hc as [->|[_ ->]]; [done|].
    by apply ordered_times_after_Create.
  - destruct (Get id w) as [r w1|] eqn:Hc; [|done].
    simplify_eq. by apply Get_inv in Hc as [->| ->].
  - rewrite List_run in Hrun. by simplify_eq.
  - destruct (Update now id title description status w) as [r w1|] eqn:Hc;
      [|done].
    simplify_eq. apply Update_inv in Hc as [->|(l & t & _ & Hl & ->)]; [done|].
    by apply ordered_times_after_Update.
  - destruct (Delete id w) as [r w1|] eqn:Hc; [|done].
    simplify_eq. by apply Delete_inv in Hc as [->| ->].
  - destruct (GetStats range w) as [r w1|] eqn:Hc; [|done].
    simplify_eq. by apply GetStats_inv in Hc as ->.
Qed.

(** X18: under a clock that never steps back, after any sequence of calls
    on a fresh process every Task cell has [CreatedAt] no later than
    [UpdatedAt]. *)
Theorem calls_keep_times_ordered cs w' :
  monotone now →
  run_calls now range cs initial = Done tt w' →
  ∀ l t, st_heap w' !! l = Some t → CreatedAt t <= UpdatedAt t.
Proof.
  intros Hmono Hrun.
  assert (∀ w, ordered_times now w →
            run_calls now range cs w = Done tt w' → ordered_times now w')
    as Hall.
  { clear Hrun. induction cs as [|c cs IH]; intros w Hw Hrun.
    - simpl in Hrun. unfold ret in Hrun. by simplify_eq.
    - simpl in Hrun. unfold mbind at 1, M_bind at 1, bind at 1 in Hrun.
      destruct (run_call now range c w) as [[] w1|] eqn:Hc; [|done].
      apply (IH w1); [|done].
      by apply (run_call_ordered_times c w w1). }
  intros l t Hl.
  by destruct (Hall initial ordered_times_initial Hrun l t Hl).
Qed.

End invariants.

Lemma map_to_list_sound {A} (m : gmap string A) (kv : string * A) :
  kv ∈ map_to_list m → m !! kv.1 = Some kv.2.
Proof. destruct kv as [k v]. apply elem_of_map_to_list. Qed.

Lemma counting_clock_monotone : monotone counting_clock.
Proof. intros i j Hij. unfold counting_clock. lia. Qed.

(** A run of [calls_keep_storage_consistent] on the sample session. *)
Lemma calls_keep_storage_consistent_run :
  ∃ w', run_calls counting_clock map_to_list sample_calls initial = Done tt w'
    ∧ consistent w'
    ∧ (∀ k1 k2 l, data_of w' !! k1 = Some (any_Task (Some l)) →
                  data_of w' !! k2 = Some (any_Task (Some l)) → k1 = k2).
Proof.
  apply (calls_keep_storage_consistent counting_clock map_to_list sample_calls).
  intros m kv. apply map_to_list_sound.
Defined.

(** A run of [calls_keep_times_ordered] on the sample session. *)
Lemma calls_keep_times_ordered_run :
  monotone counting_clock
  ∧ run_calls counting_clock map_to_list sample_calls initial
    = Done tt (world_after (run_calls counting_clock map_to_list sample_calls)
                 initial)
  ∧ ∀ l t,
      st_heap (world_after (run_calls counting_clock map_to_list sample_calls)
                 initial) !! l = Some t →
      CreatedAt t <= UpdatedAt t.
Proof.
  assert (run_calls counting_clock map_to_list sample_calls initial
          = Done tt (world_after
                       (run_calls counting_clock map_to_list sample_calls)
                       initial)) as Hrun
    by (vm_compute; reflexivity).
  split; [exact counting_clock_monotone|]. split; [exact Hrun|].
  exact (calls_keep_times_ordered counting_clock map_to_list sample_calls _
           counting_clock_monotone Hrun).
Defined.

(** ** api: the handler of a single task *)

Lemma strip_prefix_app (prefix s : string) :
  api.strip_prefix prefix (prefix +:+ s) = Some s.
Proof.
  induction prefix as [|c prefix IH]; [done|]. simpl.
  by destruct (decide (c = c)).
Qed.

Lemma TrimPrefix_app (prefix s : string) :
  api.strings_TrimPrefix (prefix +:+ s) prefix = s.
Proof. unfold api.strings_TrimPrefix. by rewrite strip_prefix_app. Qed.

(** One step of a sequence of calls. *)
Ltac step := unfold mbind at 1, M_bind at 1, bind at 1.

Section handleTaskByID_facts.
Variable now : nat → Time.
Variable range : gmap string any → list (string * any).
Variable json_Decode : string → option api.postRequest.
Variable json_Decode_put : string → option api.putRequest.
Implicit Types (r : api.Request) (w : World) (id : string).
Implicit Types (l : loc) (t : Task) (task : ptr).

Local Abbreviation by_id := (api.handleTaskByID now json_Decode_put).

Lemma handleTaskByID_GET id r w :
  id ≠ "" → api.Method r = "GET" →
  by_id ("/tasks/" +:+ id) r w
  = match Get id w with
    | Done (task, None) w' => Done (task_response 200 task) w'
    | Done (_, Some e) w' => Done (error_response 404 (Error e)) (count_error w')
    | Panic => Panic
    end.
Proof.
  intros Hid Hmethod. unfold api.handleTaskByID.
  rewrite TrimPrefix_app, Hmethod. destruct (decide (id = "")); [done|].
  simpl. step. destruct (Get id w) as [[task [e|]] w'|]; reflexivity.
Qed.

Lemma handleTaskByID_PUT id r w :
  id ≠ "" → api.Method r = "PUT" →
  by_id ("/tasks/" +:+ id) r w
  = match json_Decode_put (api.Body r) with
    | None =>
        Done (error_response 400 "Invalid request body") (count_error w)
    | Some req =>
        match Update now id (api.put_Title req) (api.put_Description req)
                (api.put_Status req) w with
        | Done (task, None) w' => Done (task_response 200 task) w'
        | Done (_, Some e) w' =>
            Done (error_response 404 (Error e)) (count_error w')
        | Panic => Panic
        end
    end.
Proof.
  intros Hid Hmethod. unfold api.handleTaskByID.
  rewrite TrimPrefix_app, Hmethod. destruct (decide (id = "")); [done|].
  simpl. destruct (json_Decode_put (api.Body r)) as [req|]; [|reflexivity].
  step. destruct (Update _ _ _ _ _ w) as [[task [e|]] w'|]; reflexivity.
Qed.

Lemma handleTaskByID_DELETE id r w :
  id ≠ "" → api.Method r = "DELETE" →
  by_id ("/tasks/" +:+ id) r w
  = match Delete id w with
    | Done None w' => Done deleted_response w'
    | Done (Some e) w' => Done (error_response 404 (Error e)) (count_error w')
    | Panic => Panic
    end.
Proof.
  intros Hid Hmethod. unfold api.handleTaskByID.
  rewrite TrimPrefix_app, Hmethod. destruct (decide (id = "")); [done|].
  simpl. step. destruct (Delete id w) as [[e|] w'|]; reflexivity.
Qed.

Lemma errors_counted_twice w :
  errors_of (count_error (count_error w)) = wrap64 (errors_of w + 2).
Proof. rewrite !errors_count_error. apply wrap64_succ_succ. Qed.

Lemma Done_inj {A} (a b : A) (w w' : World) :
  Done a w = Done b w' → a = b ∧ w = w'.
Proof. intros Heq. by injection Heq. Qed.

Lemma error_response_inj (status status' : Z) (message message' : string) :
  error_response status message = error_response status' message' →
  status = status' ∧ message = message'.
Proof.
  intros Heq.
  pose proof (f_equal api.StatusCode Heq) as Hstatus.
  pose proof (f_equal (λ resp, match api.Encoded resp with
                               | api.data_map m => m !! "error"
                               | _ => None
                               end) Heq) as Hmessage.
  unfold error_response in Hstatus, Hmessage. cbn [api.StatusCode api.Encoded]
    in Hstatus, Hmessage.
  rewrite !lookup_singleton_eq in Hmessage. by simplify_eq.
Qed.

(** X19: a request for "/tasks/" followed by an id is answered 400 "Task
    ID is required", with nothing changed and no error counted, when the
    id is empty, whatever the method and body; and no request with an id
    is answered that way. *)
Theorem handleTaskByID_requires_id id r w :
  (id = "" →
     by_id ("/tasks/" +:+ id) r w
     = Done (error_response 400 "Task ID is required") w)
  ∧ (∀ w', by_id ("/tasks/" +:+ id) r w
           = Done (error_response 400 "Task ID is required") w' →
           id = "").
Proof.
  split; [by intros ->|]. intros w' Hrun.
  destruct (decide (id = "")) as [|Hid]; [done|]. exfalso.
  destruct (decide (api.Method r = "GET")) as [Hget|Hget].
  { rewrite handleTaskByID_GET in Hrun by done.
    destruct (Get id w) as [[task [e|]] w1|]; [| |done].
    - apply Done_inj in Hrun as [Hresp _]. by apply error_response_inj in Hresp as [? _].
    - by apply Done_inj in Hrun as [Hresp _]. }
  destruct (decide (api.Method r = "PUT")) as [Hput|Hput].
  { rewrite handleTaskByID_PUT in Hrun by done.
    destruct (json_Decode_put (api.Body r)) as [req|].
    - destruct (Update _ _ _ _ _ w) as [[task [e|]] w1|]; [| |done].
      + apply Done_inj in Hrun as [Hresp _].
        by apply error_response_inj in Hresp as [? _].
      + by apply Done_inj in Hrun as [Hresp _].
    - apply Done_inj in Hrun as [Hresp _].
      by apply error_response_inj in Hresp as [_ ?]. }
  destruct (decide (api.Method r = "DELETE")) as [Hdelete|Hdelete].
  { rewrite handleTaskByID_DELETE in Hrun by done.
    destruct (Delete id w) as [[e|] w1|]; [| |done].
    - apply Done_inj in Hrun as [Hresp _]. by apply error_response_inj in Hresp as [? _].
    - by apply Done_inj in Hrun as [Hresp _]. }
  unfold api.handleTaskByID in Hrun. rewrite TrimPrefix_app in Hrun.
  destruct (decide (id = "")); [done|].
  destruct (decide (api.Method r = api.MethodGet)); [done|].
  destruct (decide (api.Method r = api.MethodPut)); [done|].
  destruct (decide (api.Method r = api.MethodDelete)); [done|].
  apply Done_inj in Hrun as [Hresp _]. by apply error_response_inj in Hresp as [? _].
Qed.

(** X20: a GET, a DELETE, or a PUT with a readable body, for an id that is
    not in the storage is answered 404 "task not found"; the error counter
    is incremented twice, by the task manager and by the handler, and the
    storage, the cells and the clock are left as they were. *)
Theorem missing_id_is_not_found id r w :
  id ≠ "" →
  data_of w !! id = None →
  api.Method r = "GET" ∨ api.Method r = "DELETE"
  ∨ (api.Method r = "PUT" ∧ is_Some (json_Decode_put (api.Body r))) →
  by_id ("/tasks/" +:+ id) r w
    = Done (error_response 404 "task not found") (count_error (count_error w))
  ∧ errors_of (count_error (count_error w)) = wrap64 (errors_of w + 2)
  ∧ st_storage (count_error (count_error w)) = st_storage w
  ∧ st_heap (count_error (count_error w)) = st_heap w
  ∧ st_ticks (count_error (count_error w)) = st_ticks w.
Proof.
  intros Hid Habsent Hmethod. split_and!; try done;
    [|apply errors_counted_twice].
  destruct Hmethod as [Hm|[Hm|[Hm [req Hreq]]]].
  - rewrite handleTaskByID_GET by done. by rewrite Get_absent_id.
  - rewrite handleTaskByID_DELETE by done. by rewrite Delete_absent_id.
  - rewrite handleTaskByID_PUT by done. rewrite Hreq.
    by rewrite Update_absent.
Qed.

(** X21: a GET for an id bound to a Task pointer is answered 200 with that
    pointer and changes nothing; for an id bound to anything else it is
    answered 404 "invalid task data" and two errors are counted. *)
Theorem GET_by_id id r w :
  id ≠ "" →
  api.Method r = "GET" →
  (∀ task, data_of w !! id = Some (any_Task task) →
     by_id ("/tasks/" +:+ id) r w = Done (task_response 200 task) w)
  ∧ (∀ val, data_of w !! id = Some val → as_Task val = None →
       by_id ("/tasks/" +:+ id) r w
       = Done (error_response 404 "invalid task data")
              (count_error (count_error w))).
Proof.
  intros Hid Hmethod. split.
  - intros task Hstored. rewrite handleTaskByID_GET by done.
    by rewrite (Get_stored_task _ _ _ Hstored).
  - intros val Hstored Hval. rewrite handleTaskByID_GET by done.
    by rewrite (Get_not_a_task _ _ _ Hstored Hval).
Qed.

(** X22: a PUT with a readable body for an id bound to a Task is answered
    200 with the Task's pointer; in its cell each of title, description and
    status is the one of the body when that is not empty and is unchanged
    otherwise, [UpdatedAt] is the clock reading of the call, the id and
    [CreatedAt] are unchanged, and no error is counted. *)
Theorem PUT_by_id id r req w l t :
  id ≠ "" →
  api.Method r = "PUT" →
  json_Decode_put (api.Body r) = Some req →
  data_of w !! id = Some (any_Task (Some l)) →
  st_heap w !! l = Some t →
  ∃ w' t',
    by_id ("/tasks/" +:+ id) r w = Done (task_response 200 (Some l)) w'
    ∧ st_heap w' !! l = Some t'
    ∧ Title t' = (if decide (api.put_Title req = "") then Title t
                  else api.put_Title req)
    ∧ Description t' = (if decide (api.put_Description req = "")
                        then Description t else api.put_Description req)
    ∧ Status t' = (if decide (api.put_Status req = "") then Status t
                   else api.put_Status req)
    ∧ UpdatedAt t' = now (st_ticks w)
    ∧ ID t' = ID t ∧ CreatedAt t' = CreatedAt t
    ∧ data_of w' = data_of w
    ∧ errors_of w' = errors_of w.
Proof.
  intros Hid Hmethod Hreq Hstored Hl. eexists _, _. split.
  { rewrite handleTaskByID_PUT by done. rewrite Hreq.
    by rewrite (Update_stored now _ _ _ _ _ _ _ Hstored Hl). }
  split; [apply lookup_insert_eq|]. simpl. split_and!; try done.
  - by destruct (decide (api.put_Title req ≠ "")),
      (decide (api.put_Title req = "")).
  - by destruct (decide (api.put_Description req ≠ "")),
      (decide (api.put_Description req = "")).
  - by destruct (decide (api.put_Status req ≠ "")),
      (decide (api.put_Status req = "")).
  - unfold data_of in *. simpl. by apply insert_id.
Qed.

(** X23: a DELETE for an id bound to a Task pointer is answered 200 with
    the message "Task deleted" and counts no error; a GET or a DELETE for
    the same path that follows is answered 404 "task not found". *)
Theorem DELETE_by_id_then_not_found id r r' w task :
  id ≠ "" →
  api.Method r = "DELETE" →
  api.Method r' = "GET" ∨ api.Method r' = "DELETE" →
  data_of w !! id = Some (any_Task task) →
  ∃ w',
    by_id ("/tasks/" +:+ id) r w = Done deleted_response w'
    ∧ errors_of w' = errors_of w
    ∧ data_of w' !! id = None
    ∧ by_id ("/tasks/" +:+ id) r' w'
      = Done (error_response 404 "task not found")
             (count_error (count_error w')).
Proof.
  intros Hid Hmethod Hmethod' Hstored. exists (after_Delete id w).
  pose proof (after_Delete_unbound id w) as Hgone.
  split_and!; try done.
  - rewrite handleTaskByID_DELETE by done.
    by rewrite (Delete_stored _ _ _ Hstored).
  - destruct Hmethod' as [Hm|Hm].
    + rewrite handleTaskByID_GET by done. by rewrite Get_absent_id.
    + rewrite handleTaskByID_DELETE by done. by rewrite Delete_absent_id.
Qed.

(** X24: a body that cannot be decoded is answered 400 "Invalid request
    body", by POST /tasks and by PUT /tasks/{id} alike, whether or not the
    id exists; one error is counted and nothing else happens: no task is
    created or changed and the clock is not read. *)
Theorem unreadable_body_is_rejected id r w :
  (api.Method r = "POST" → json_Decode (api.Body r) = None →
     api.handleTasks now range json_Decode r w
     = Done (error_response 400 "Invalid request body") (count_error w))
  ∧ (id ≠ "" → api.Method r = "PUT" →
     json_Decode_put (api.Body r) = None →
     by_id ("/tasks/" +:+ id) r w
     = Done (error_response 400 "Invalid request body") (count_error w))
  ∧ st_storage (count_error w) = st_storage w
  ∧ st_heap (count_error w) = st_heap w
  ∧ st_ticks (count_error w) = st_ticks w.
Proof.
  split_and!; try done.
  - intros Hmethod Hbody. by apply handleTasks_bad_body.
  - intros Hid Hmethod Hbody. rewrite handleTaskByID_PUT by done.
    by rewrite Hbody.
Qed.

(** X25: a method the handler has no case for is answered 405 "Method not
    allowed" and changes nothing; in particular it is not counted as an
    error. *)
Theorem other_methods_not_allowed id r w :
  (api.Method r ≠ "GET" → api.Method r ≠ "POST" →
     api.handleTasks now range json_Decode r w
     = Done (error_response 405 "Method not allowed") w)
  ∧ (id ≠ "" → api.Method r ≠ "GET" → api.Method r ≠ "PUT" →
     api.Method r ≠ "DELETE" →
     by_id ("/tasks/" +:+ id) r w
     = Done (error_response 405 "Method not allowed") w).
Proof.
  split.
  - intros Hget Hpost. unfold api.handleTasks.
    destruct (decide (api.Method r = api.MethodGet)); [done|].
    destruct (decide (api.Method r = api.MethodPost)); [done|].
    reflexivity.
  - intros Hid Hget Hput Hdelete. unfold api.handleTaskByID.
    rewrite TrimPrefix_app. destruct (decide (id = "")); [done|].
    destruct (decide (api.Method r = api.MethodGet)); [done|].
    destruct (decide (api.Method r = api.MethodPut)); [done|].
    destruct (decide (api.Method r = api.MethodDelete)); [done|].
    reflexivity.
Qed.

(** X26: a POST whose body decodes to a non-empty title is answered 201
    with a pointer to the new Task and counts no error; a GET for
    "/tasks/" followed by that Task's id is then answered 200 with the
    same pointer. *)
Theorem POST_then_GET_by_id r r' req w :
  api.Method r = "POST" →
  json_Decode (api.Body r) = Some req →
  api.Title req ≠ "" →
  api.Method r' = "GET" →
  ∃ l t w',
    api.handleTasks now range json_Decode r w
      = Done (task_response 201 (Some l)) w'
    ∧ st_heap w' !! l = Some t
    ∧ Title t = api.Title req
    ∧ Description t = api.Description req
    ∧ Status t = "pending"
    ∧ errors_of w' = errors_of w
    ∧ by_id ("/tasks/" +:+ ID t) r' w' = Done (task_response 200 (Some l)) w'.
Proof.
  intros Hmethod Hbody Htitle Hmethod'.
  eexists _, (created now (api.Title req) (api.Description req) w), _.
  split.
  { unfold api.handleTasks. rewrite Hmethod, Hbody. simpl. step.
    rewrite Create_titled by done. reflexivity. }
  split; [apply after_Create_cell|]. split_and!; try done.
  rewrite handleTaskByID_GET by done.
  by rewrite (Get_stored_task _ _ _ (after_Create_binding now _ _ w)).
Qed.

End handleTaskByID_facts.

(** ** api: the middleware *)

Section middleware_facts.
Variable now : nat → Time.
Variable range : gmap string any → list (string * any).
Variable json_Decode : string → option api.postRequest.
Variable json_Decode_put : string → option api.putRequest.
Implicit Types (r : api.Request) (w : World) (resp : api.Response).

(** Neither handler touches the request counter. *)
Lemma handleTasks_requests r w resp w' :
  api.handleTasks now range json_Decode r w = Done resp w' →
  requests_of w' = requests_of w.
Proof.
  unfold api.handleTasks. intros Hrun.
  destruct (decide (api.Method r = api.MethodGet)) as [Hd1|Hd1].
  { unfold mbind at 1, M_bind at 1, bind at 1 in Hrun.
    rewrite List_run in Hrun. unfold api.jsonResponse, ret in Hrun.
    by simplify_eq. }
  destruct (decide (api.Method r = api.MethodPost)) as [Hd2|Hd2].
  - destruct (json_Decode (api.Body r)) as [req|].
    + unfold mbind at 1, M_bind at 1, bind at 1 in Hrun.
      destruct (Create now (api.Title req) (api.Description req) w)
        as [[task [e|]] w1|] eqn:Hcreate; [| |done].
      * unfold mbind at 1, M_bind at 1, bind at 1 in Hrun.
        unfold metrics_IncrementErrors, api.jsonError, api.jsonResponse, ret
          in Hrun.
        simplify_eq. by apply Create_inv in Hcreate as [->|[_ ->]].
      * unfold api.jsonResponse, ret in Hrun.
        simplify_eq. by apply Create_inv in Hcreate as [->|[_ ->]].
    + unfold mbind at 1, M_bind at 1, bind at 1 in Hrun.
      unfold metrics_IncrementErrors, api.jsonError, api.jsonResponse, ret
        in Hrun.
      by simplify_eq.
  - unfold api.jsonError, api.jsonResponse, ret in Hrun. by simplify_eq.
Qed.

Lemma handleTaskByID_requests (path : string) r w resp w' :
  api.handleTaskByID now json_Decode_put path r w = Done resp w' →
  requests_of w' = requests_of w.
Proof.
  unfold api.handleTaskByID. intros Hrun.
  set (id := api.strings_TrimPrefix path "/tasks/") in *.
  destruct (decide (id = "")) as [Hd3|Hd3].
  { unfold api.jsonError, api.jsonResponse, ret in Hrun. by simplify_eq. }
  destruct (decide (api.Method r = api.MethodGet)) as [Hd4|Hd4].
  { unfold mbind at 1, M_bind at 1, bind at 1 in Hrun.
    destruct (Get id w) as [[task [e|]] w1|] eqn:Hget; [| |done].
    - unfold mbind at 1, M_bind at 1, bind at 1 in Hrun.
      unfold metrics_IncrementErrors, api.jsonError, api.jsonResponse, ret
        in Hrun.
      simplify_eq. by apply Get_inv in Hget as [->| ->].
    - unfold api.jsonResponse, ret in Hrun.
      simplify_eq. by apply Get_inv in Hget as [->| ->]. }
  destruct (decide (api.Method r = api.MethodPut)) as [Hd5|Hd5].
  { destruct (json_Decode_put (api.Body r)) as [req|].
    - unfold mbind at 1, M_bind at 1, bind at 1 in Hrun.
      destruct (Update now id _ _ _ w) as [[task [e|]] w1|] eqn:Hupdate;
        [| |done].
      + unfold mbind at 1, M_bind at 1, bind at 1 in Hrun.
        unfold metrics_IncrementErrors, api.jsonError, api.jsonResponse, ret
          in Hrun.
        simplify_eq.
        by apply Update_inv in Hupdate as [->|(l & t & _ & _ & ->)].
      + unfold api.jsonResponse, ret in Hrun. simplify_eq.
        by apply Update_inv in Hupdate as [->|(l & t & _ & _ & ->)].
    - unfold mbind at 1, M_bind at 1, bind at 1 in Hrun.
      unfold metrics_IncrementErrors, api.jsonError, api.jsonResponse, ret
        in Hrun.
      by simplify_eq. }
  destruct (decide (api.Method r = api.MethodDelete)) as [Hd6|Hd6].
  { unfold mbind at 1, M_bind at 1, bind at 1 in Hrun.
    destruct (Delete id w) as [[e|] w1|] eqn:Hdelete; [| |done].
    - unfold mbind at 1, M_bind at 1, bind at 1 in Hrun.
      unfold metrics_IncrementErrors, api.jsonError, api.jsonResponse, ret
        in Hrun.
      simplify_eq. by apply Delete_inv in Hdelete as [->| ->].
    - unfold api.jsonResponse, ret in Hrun.
      simplify_eq. by apply Delete_inv in Hdelete as [->| ->]. }
  unfold api.jsonError, api.jsonResponse, ret in Hrun. by simplify_eq.
Qed.

(** X27: behind the middleware, every request that is answered, whatever
    its path, method, body and outcome, has added exactly one to the
    request counter (modulo the [int64] wrap-around); the handlers
    themselves never change that counter. *)
Theorem middleware_counts_each_request_once (path : string) r w resp w' :
  (handled (api.handleTasks now range json_Decode) r w = Done resp w' →
     requests_of w' = wrap64 (requests_of w + 1))
  ∧ (handled (api.handleTaskByID now json_Decode_put path) r w = Done resp w' →
       requests_of w' = wrap64 (requests_of w + 1))
  ∧ (api.handleTasks now range json_Decode r w = Done resp w' →
       requests_of w' = requests_of w)
  ∧ (api.handleTaskByID now json_Decode_put path r w = Done resp w' →
       requests_of w' = requests_of w).
Proof.
  unfold handled, api.loggingMiddleware. split_and!.
  - unfold mbind at 1, M_bind at 1, bind at 1, metrics_IncrementRequests.
    intros Hrun. by apply handleTasks_requests in Hrun as ->.
  - unfold mbind at 1, M_bind at 1, bind at 1, metrics_IncrementRequests.
    intros Hrun. by apply handleTaskByID_requests in Hrun as ->.
  - apply handleTasks_requests.
  - apply handleTaskByID_requests.
Qed.

End middleware_facts.

(** ** Runs of the statements above on the sample inputs *)

Lemma one_task_binding :
  data_of one_task !! "task-0" = Some (any_Task (Some 1%positive)).
Proof. vm_compute. reflexivity. Qed.

Lemma one_task_cell :
  st_heap one_task !! 1%positive
  = Some (created counting_clock "Test" "d" initial).
Proof. vm_compute. reflexivity. Qed.



Lemma Update_writes_one_cell_run :
  ∃ w', Update counting_clock "task-0" "" "" "completed" one_task
        = Done (Some 1%positive, None) w'
    ∧ data_of w' = data_of one_task
    ∧ (∀ l', l' ≠ 1%positive → st_heap w' !! l' = st_heap one_task !! l')
    ∧ errors_of w' = errors_of one_task
    ∧ requests_of w' = requests_of one_task
    ∧ st_ticks w' = S (st_ticks one_task).
Proof.
  exact (Update_writes_one_cell counting_clock "task-0" "" "" "completed"
           one_task 1%positive _ one_task_binding one_task_cell).
Defined.

Lemma Delete_removes_one_binding_run :
  ∃ w', Delete "task-0" one_task = Done None w'
    ∧ data_of w' !! "task-0" = None
    ∧ (∀ k, k ≠ "task-0" → data_of w' !! k = data_of one_task !! k)
    ∧ st_heap w' = st_heap one_task
    ∧ storage.Count (st_storage w') = storage.Count (st_storage one_task) - 1
    ∧ errors_of w' = errors_of one_task
    ∧ requests_of w' = requests_of one_task
    ∧ st_ticks w' = st_ticks one_task.
Proof.
  exact (Delete_removes_one_binding "task-0" one_task _ one_task_binding).
Defined.

Lemma foreign_value_binding :
  data_of foreign_value !! "note" = Some (any_other "text").
Proof. vm_compute. reflexivity. Qed.

Lemma Delete_keeps_what_is_not_a_task_run :
  Delete "note" foreign_value
    = Done (Some err_invalid_data) (count_error foreign_value)
  ∧ data_of (count_error foreign_value) !! "note" = Some (any_other "text")
  ∧ Get "note" (count_error foreign_value)
    = Done (None, Some err_invalid_data)
           (count_error (count_error foreign_value))
  ∧ Delete "note" (count_error foreign_value)
    = Done (Some err_invalid_data) (count_error (count_error foreign_value)).
Proof.
  apply (Delete_keeps_what_is_not_a_task "note" foreign_value
           (any_other "text") foreign_value_binding).
  reflexivity.
Defined.

Lemma missing_id_is_not_found_run :
  api.handleTaskByID counting_clock completes ("/tasks/" +:+ "task-9")
    (request "DELETE") one_task
    = Done (error_response 404 "task not found")
           (count_error (count_error one_task))
  ∧ errors_of (count_error (count_error one_task))
    = wrap64 (errors_of one_task + 2)
  ∧ st_storage (count_error (count_error one_task)) = st_storage one_task
  ∧ st_heap (count_error (count_error one_task)) = st_heap one_task
  ∧ st_ticks (count_error (count_error one_task)) = st_ticks one_task.
Proof.
  apply (missing_id_is_not_found counting_clock completes "task-9"
           (request "DELETE") one_task).
  - done.
  - vm_compute. reflexivity.
  - right. left. reflexivity.
Defined.

Lemma GET_by_id_run :
  (∀ task, data_of one_task !! "task-0" = Some (any_Task task) →
     api.handleTaskByID counting_clock completes ("/tasks/" +:+ "task-0")
       (request "GET") one_task
     = Done (task_response 200 task) one_task)
  ∧ (∀ val, data_of one_task !! "task-0" = Some val → as_Task val = None →
       api.handleTaskByID counting_clock completes ("/tasks/" +:+ "task-0")
         (request "GET") one_task
       = Done (error_response 404 "invalid task data")
              (count_error (count_error one_task))).
Proof.
  apply (GET_by_id counting_clock completes "task-0" (request "GET") one_task);
    done.
Defined.

Lemma PUT_by_id_run :
  ∃ w' t',
    api.handleTaskByID counting_clock completes ("/tasks/" +:+ "task-0")
      (request "PUT") one_task
    = Done (task_response 200 (Some 1%positive)) w'
    ∧ st_heap w' !! 1%positive = Some t'
    ∧ Title t' = "Test"
    ∧ Description t' = "d"
    ∧ Status t' = "completed"
    ∧ UpdatedAt t' = counting_clock (st_ticks one_task)
    ∧ ID t' = "task-0" ∧ CreatedAt t' = 1
    ∧ data_of w' = data_of one_task
    ∧ errors_of w' = errors_of one_task.
Proof.
  exact (PUT_by_id counting_clock completes "task-0" (request "PUT")
           {| api.put_Title := ""; api.put_Description := "";
              api.put_Status := "completed" |}
           one_task 1%positive _
           ltac:(done) eq_refl eq_refl one_task_binding one_task_cell).
Defined.

Lemma DELETE_by_id_then_not_found_run :
  ∃ w',
    api.handleTaskByID counting_clock completes ("/tasks/" +:+ "task-0")
      (request "DELETE") one_task
    = Done deleted_response w'
    ∧ errors_of w' = errors_of one_task
    ∧ data_of w' !! "task-0" = None
    ∧ api.handleTaskByID counting_clock completes ("/tasks/" +:+ "task-0")
        (request "GET") w'
      = Done (error_response 404 "task not found")
             (count_error (count_error w')).
Proof.
  apply (DELETE_by_id_then_not_found counting_clock completes "task-0"
           (request "DELETE") (request "GET") one_task (Some 1%positive)).
  - done.
  - reflexivity.
  - left. reflexivity.
  - exact one_task_binding.
Defined.

Lemma POST_then_GET_by_id_run :
  ∃ l t w',
    api.handleTasks counting_clock map_to_list posts_Test (request "POST")
      initial
    = Done (task_response 201 (Some l)) w'
    ∧ st_heap w' !! l = Some t
    ∧ Title t = "Test"
    ∧ Description t = "d"
    ∧ Status t = "pending"
    ∧ errors_of w' = errors_of initial
    ∧ api.handleTaskByID counting_clock completes ("/tasks/" +:+ ID t)
        (request "GET") w'
      = Done (task_response 200 (Some l)) w'.
Proof.
  apply (POST_then_GET_by_id counting_clock map_to_list posts_Test completes
           (request "POST") (request "GET")
           {| api.Title := "Test"; api.Description := "d" |} initial);
    done.
Defined.
